(** * ProcessBase: Lamport clock, message buffer and tagged transport wrapper

    A shallow embedding of [src/process_base.h].  The class [ProcessBase]
    wraps an MPL communicator: every outgoing message is stamped with the
    process's Lamport clock, every incoming one moves the clock forward, and
    messages that arrive before they are asked for wait in a buffer of heap
    copies. *)

From Stdlib Require Import ZArith List Lia Sorted.
From stdpp Require Import base option list gmap.

Open Scope Z_scope.

(** ** The C++ [int]

    [lamportClock], the timestamps, ranks and element counts are [int]s:
    32 bits, two's complement on every target of the code.  Overflow of a
    signed [int] is undefined in C++; the model takes the result the
    targets compute, the wrapped one, which is in any case an [int]. *)
Module Int.

Definition INT_MAX : Z := 2147483647.
Definition INT_MIN : Z := -2147483648.

Definition is_int (z : Z) : Prop := INT_MIN <= z <= INT_MAX.

Definition wrap (z : Z) : Z := (z - INT_MIN) mod 2 ^ 32 + INT_MIN.

End Int.

(** ** What the code uses of MPL (the transport, an external library) *)
Module Mpl.

(** [mpl::any_source] is [MPI_ANY_SOURCE] and [mpl::undefined] is
    [MPI_UNDEFINED]: negative constants of the MPI implementation (the
    values are Open MPI's), different from every rank and every count. *)
Definition any_source : Z := -1.
Definition undefined : Z := -32766.

(** [mpl::status], as far as the code reads it: [source()] and [tag()]. *)
Record status : Type := { source : Z; tag : Z }.

End Mpl.

(** [EXIT_FAILURE] of <cstdlib>. *)
Definition EXIT_FAILURE : Z := 1.

(** Addresses of the heap copies the buffer owns ([new T(message)]). *)
Abbreviation ptr := positive.

(** How a call ends: it returns, the process exits, or it reads through a
    pointer that is not live.  [S] is what the call can change: the world,
    with the argument it takes by reference when it has one. *)
Inductive outcome (S A : Type) : Type :=
| Return (a : A) (s : S)
| Exit (code : Z) (s : S)
| Fault.
Arguments Return {S A} a s.
Arguments Exit {S A} code s.
Arguments Fault {S A}.

Section Substrate.

(** The message type [T] of the templates: what a variant carries besides
    its timestamp, and that part of a default-constructed [T{}]. *)
Variable Payload : Type.
Variable blank : Payload.

(** Modelled from the spec: [struct MessageBase] is only forward-declared in
    [process_base.h]; it is "a polymorphic payload ... that exposes a
    mutable logical-timestamp field", an integer one, "constructible in a
    default state". *)
Record MessageBase : Type := { timestamp : Z; payload : Payload }.

Definition T_default : MessageBase := {| timestamp := 0; payload := blank |}.

(** *** The object and its environment *)

(** The data members of [ProcessBase] (the diagnostic label [tag] and the
    communicator handle are left out: the first is only printed, the
    second is the environment below). *)
Record ProcessBase : Type := {
  lamportClock : Z;
  rank : Z;
  broadcastScope : list Z;
  messageBuffer : list (ptr * Mpl.status);
}.

(** A call the code makes on the communicator. *)
Inductive call : Type :=
| send_one (message : MessageBase) (recipientRank tag : Z)
| send_range (message : list MessageBase) (recipientRank tag : Z)
| recv_one (sourceRank tag : Z)
| recv_range (size : nat) (sourceRank tag : Z)
| probe (sourceRank tag : Z).

(** The process, the free store holding the buffered copies, and the
    communicator calls made so far, oldest first. *)
Record world : Type := {
  self : ProcessBase;
  heap : gmap ptr MessageBase;
  calls : list call;
}.

Definition with_clock (c : Z) (w : world) : world :=
  {| self := {| lamportClock := c;
                rank := rank (self w);
                broadcastScope := broadcastScope (self w);
                messageBuffer := messageBuffer (self w) |};
     heap := heap w;
     calls := calls w |}.

Definition with_buffer (b : list (ptr * Mpl.status)) (w : world) : world :=
  {| self := {| lamportClock := lamportClock (self w);
                rank := rank (self w);
                broadcastScope := broadcastScope (self w);
                messageBuffer := b |};
     heap := heap w;
     calls := calls w |}.

Definition with_heap (h : gmap ptr MessageBase) (w : world) : world :=
  {| self := self w; heap := h; calls := calls w |}.

Definition logged (c : call) (w : world) : world :=
  {| self := self w; heap := heap w; calls := calls w ++ [c] |}.

(** *** The clock *)

(** [lamportClock++]. *)
Definition tick (w : world) : world :=
  with_clock (Int.wrap (lamportClock (self w) + 1)) w.

(** [lamportClock = std::max(lamportClock, timestamp) + 1]. *)
Definition observe (timestamp : Z) (w : world) : world :=
  with_clock (Int.wrap (Z.max (lamportClock (self w)) timestamp + 1)) w.

(** Modelled from the spec: the bodies of [setTimestamp] and [getTimestamp]
    are not in [process_base.h], which declares both [const]: they cannot
    change the clock.  The first "writes the current clock value into the
    message's timestamp field", the second "reads the message's
    timestamp". *)
Definition setTimestamp (p : ProcessBase) (message : MessageBase) : MessageBase :=
  {| timestamp := lamportClock p; payload := payload message |}.

Definition getTimestamp (p : ProcessBase) (message : MessageBase) : Z :=
  timestamp message.

(** *** The buffer *)

(** Modelled from the spec: the body of [storeInBuffer] is not in
    [process_base.h]; it "appends an owned message and its metadata to the
    end of an ordered holding area". *)
Definition storeInBuffer (message : ptr) (status : Mpl.status) (w : world) : world :=
  with_buffer (messageBuffer (self w) ++ [(message, status)]) w.

(** Modelled from the spec: the test of [fetchFromBuffer] on one entry, "whose
    source rank matches [sourceFilter] (or matches any rank if the filter is
    wildcard) and whose tag is a member of [tagSet]". *)
Definition matches (sourceRank : Z) (tags : list Z) (e : ptr * Mpl.status) : bool :=
  ((sourceRank =? Mpl.any_source) || (Mpl.source (snd e) =? sourceRank))
  && existsb (Z.eqb (Mpl.tag (snd e))) tags.

(** Modelled from the spec: the scan of [fetchFromBuffer], "in insertion
    order"; it gives the first matching entry and the buffer without it. *)
Fixpoint scan (sourceRank : Z) (tags : list Z) (b : list (ptr * Mpl.status))
  : option ((ptr * Mpl.status) * list (ptr * Mpl.status)) :=
  match b with
  | [] => None
  | e :: rest =>
      if matches sourceRank tags e then Some (e, rest)
      else match scan sourceRank tags rest with
           | Some (hit, rest') => Some (hit, e :: rest')
           | None => None
           end
  end.

(** Modelled from the spec: the body of [fetchFromBuffer] is not in
    [process_base.h]; it "scans the holding area in insertion order and
    removes the first entry whose source rank matches [sourceFilter] (or
    matches any rank if the filter is wildcard) and whose tag is a member
    of [tagSet]; returns that entry's message and metadata, or signals
    not found if no entry matches".  The pointer and the status the code
    returns are the entry; [None] is the null pointer. *)
Definition fetchFromBuffer (w : world) (sourceRank : Z) (tags : list Z)
  : option (ptr * Mpl.status) * world :=
  match scan sourceRank tags (messageBuffer (self w)) with
  | Some (e, b) => (Some e, with_buffer b w)
  | None => (None, w)
  end.

(** *** Sending *)

(** [send]: the clock moves first, the message is stamped next, then it is
    handed to the communicator.  The message is taken by reference: its
    stamped content is returned with the world. *)
Definition send (w : world) (message : MessageBase) (recipientRank tag : Z)
  : world * MessageBase :=
  let w := tick w in
  let message := setTimestamp (self w) message in
  (logged (send_one message recipientRank tag) w, message).

(** The loop of [broadcast] and [broadcastVector] over [broadcastScope]:
    [transmit recipientRank] is the communicator call of the loop body. *)
Fixpoint to_scope (rank : Z) (transmit : Z -> call) (scope : list Z) (w : world)
  : world :=
  match scope with
  | [] => w
  | recipientRank :: rest =>
      if recipientRank =? rank then to_scope rank transmit rest w
      else to_scope rank transmit rest (logged (transmit recipientRank) w)
  end.

Definition broadcast (w : world) (message : MessageBase) (tag : Z)
  : world * MessageBase :=
  let w := tick w in
  let message := setTimestamp (self w) message in
  (to_scope (rank (self w)) (fun recipientRank => send_one message recipientRank tag)
     (broadcastScope (self w)) w,
   message).

(** The loop [for (int i = 0; i < message.size(); i++)
    setTimestamp(message[i])], from the counter value [i] on, over the
    elements from index [i].  The counter is an [int] and the test compares
    it as a [size_t]: a counter that is not negative is below the size
    exactly while an element is left; once [i++] has overflowed past
    [INT_MAX] the counter is negative, as a [size_t] it is above every size,
    and the loop ends with the elements from index [2^31] on as they
    were. *)
Fixpoint stamp_from (p : ProcessBase) (i : Z) (message : list MessageBase)
  : list MessageBase :=
  match message with
  | [] => []
  | m :: rest =>
      if i <? 0 then m :: rest
      else setTimestamp p m :: stamp_from p (Int.wrap (i + 1)) rest
  end.

Definition stamp_all (p : ProcessBase) (message : list MessageBase)
  : list MessageBase :=
  stamp_from p 0 message.

Definition sendVector (w : world) (message : list MessageBase) (recipientRank tag : Z)
  : world * list MessageBase :=
  let w := tick w in
  let message := stamp_all (self w) message in
  (logged (send_range message recipientRank tag) w, message).

Definition broadcastVector (w : world) (message : list MessageBase) (tag : Z)
  : world * list MessageBase :=
  let w := tick w in
  let message := stamp_all (self w) message in
  (to_scope (rank (self w)) (fun recipientRank => send_range message recipientRank tag)
     (broadcastScope (self w)) w,
   message).

(** *** Receiving *)

(** [receive].  [arrival] is what [communicator.recv] delivers when it is
    called: the message and its status.  On a buffer hit the destination is
    assigned the heap copy, which is deleted; the tail (timestamp, clock,
    return) is shared by both branches.  The buffer of the model holds
    messages of the one type [T]: what [static_cast<const T*>] makes of a
    copy of another type is not modelled. *)
Definition receive (w : world) (message : MessageBase) (sourceRank tag : Z)
    (arrival : MessageBase * Mpl.status)
  : outcome (world * MessageBase) Mpl.status :=
  let got :=
    match fetchFromBuffer w sourceRank [tag] with
    | (Some (bufferedMessage, status), w) =>
        match heap w !! bufferedMessage with
        | Some copy =>
            Some (with_heap (delete bufferedMessage (heap w)) w, copy, status)
        | None => None
        end
    | (None, w) =>
        Some (logged (recv_one sourceRank tag) w, fst arrival, snd arrival)
    end in
  match got with
  | Some (w, message, status) =>
      let timestamp := getTimestamp (self w) message in
      Return status (observe timestamp w, message)
  | None => Fault
  end.

Definition receiveAny (w : world) (message : MessageBase) (tag : Z)
    (arrival : MessageBase * Mpl.status)
  : outcome (world * MessageBase) Mpl.status :=
  receive w message Mpl.any_source tag arrival.

(** What the communicator holds for a vector receive: bytes that are not a
    whole number of [T], or a batch of [T]. *)
Inductive pending : Type :=
| ragged
| elements (batch : list MessageBase).

(** [probe.get_count<T>()]: the number of elements, [mpl::undefined] when
    there is none (or none that an [int] holds). *)
Definition get_count (d : pending) : Z :=
  match d with
  | ragged => Mpl.undefined
  | elements batch =>
      if Z.of_nat (length batch) <=? Int.INT_MAX then Z.of_nat (length batch)
      else Mpl.undefined
  end.

(** [communicator.recv(message.begin(), message.end(), ...)]: the elements
    delivered overwrite the front of the range. *)
Definition recv_into (message : list MessageBase) (d : pending) : list MessageBase :=
  match d with
  | ragged => message
  | elements batch => take (length message) batch ++ drop (length batch) message
  end.

Definition receiveVector (w : world) (message : list MessageBase) (sourceRank tag : Z)
    (d : pending) (arrival : Mpl.status)
  : outcome (world * list MessageBase) Mpl.status :=
  let w := logged (probe sourceRank tag) w in
  let size := get_count d in
  if (size =? Mpl.undefined) || (size =? 0) then Exit EXIT_FAILURE (w, message)
  else
    let message := resize (Z.to_nat size) T_default message in
    let w := logged (recv_range (length message) sourceRank tag) w in
    let message := recv_into message d in
    let status := arrival in
    match message with
    | first :: _ =>
        let timestamp := getTimestamp (self w) first in
        Return status (observe timestamp w, message)
    | [] => Fault
    end.

Definition receiveVectorAny (w : world) (message : list MessageBase) (tag : Z)
    (d : pending) (arrival : Mpl.status)
  : outcome (world * list MessageBase) Mpl.status :=
  receiveVector w message Mpl.any_source tag d arrival.

(** *** Multi-tag dispatch *)

(** A [std::function<void(const MessageBase*, const mpl::status&)>]: code
    of the algorithm layer, free to use the whole process. *)
Definition handler : Type := MessageBase -> Mpl.status -> world -> outcome world unit.

(** [receiveMultiTagHandle<T>]: one message is received; a handler
    registered for its tag gets it after the clock has observed it, without
    one a heap copy goes to the buffer with its status. *)
Definition receiveMultiTagHandle (w : world) (sourceRank tag : Z)
    (messageHandlers : gmap Z handler) (arrival : MessageBase * Mpl.status)
  : outcome world bool :=
  let w := logged (recv_one sourceRank tag) w in
  let message := fst arrival in
  let status := snd arrival in
  match messageHandlers !! Mpl.tag status with
  | Some handle =>
      let timestamp := getTimestamp (self w) message in
      let w := observe timestamp w in
      match handle message status w with
      | Return _ w => Return true w
      | Exit code w => Exit code w
      | Fault => Fault
      end
  | None =>
      let copy := fresh (dom (heap w)) in
      let w := with_heap (<[copy := message]> (heap w)) w in
      Return false (storeInBuffer copy status w)
  end.

(** *** Ownership of the buffered copies *)

(** Every buffered pointer is live and is buffered once: each comes from
    its own [new T(message)] and is deleted when it is fetched. *)
Definition owned (w : world) : Prop :=
  NoDup (map fst (messageBuffer (self w)))
  /\ forall p, p ∈ map fst (messageBuffer (self w)) -> is_Some (heap w !! p).

(** What [fetchFromBuffer] looks for, as a proposition. *)
Definition wanted (sourceRank : Z) (tags : list Z) (e : ptr * Mpl.status) : Prop :=
  (sourceRank = Mpl.any_source \/ Mpl.source (snd e) = sourceRank)
  /\ Mpl.tag (snd e) ∈ tags.

(** The process once constructed and given its broadcast scope: the clock
    is 0 ([int lamportClock = 0]) and nothing is buffered. *)
Definition started (rank : Z) (scope : list Z) : world :=
  {| self := {| lamportClock := 0; rank := rank;
                broadcastScope := scope; messageBuffer := [] |};
     heap := ∅;
     calls := [] |}.

(** *** Runs of clock events *)

Inductive event : Type :=
| do_send (message : MessageBase) (recipientRank tag : Z)
| do_broadcast (message : MessageBase) (tag : Z)
| do_sendVector (message : list MessageBase) (recipientRank tag : Z)
| do_broadcastVector (message : list MessageBase) (tag : Z)
| do_receive (message : MessageBase) (sourceRank tag : Z)
    (arrival : MessageBase * Mpl.status)
| do_receiveAny (message : MessageBase) (tag : Z)
    (arrival : MessageBase * Mpl.status)
| do_receiveVector (message : list MessageBase) (sourceRank tag : Z)
    (d : pending) (arrival : Mpl.status)
| do_receiveVectorAny (message : list MessageBase) (tag : Z)
    (d : pending) (arrival : Mpl.status).

(** The vector receives whose probe is fatal. *)
Definition fatal (e : event) : Prop :=
  match e with
  | do_receiveVector _ _ _ d _ | do_receiveVectorAny _ _ d _ =>
      get_count d = Mpl.undefined \/ get_count d = 0
  | _ => False
  end.

(** One result of a receive: the world, and the timestamp of the message
    received (of the first element for a vector). *)
Definition received {A : Type} (stamp : A -> option Z)
    (o : outcome (world * A) Mpl.status) : option (world * option Z) :=
  match o with
  | Return _ (w, message) => Some (w, stamp message)
  | _ => None
  end.

(** The world after an event that returns, with the timestamp that came in
    when the event is a receive. *)
Definition step (w : world) (e : event) : option (world * option Z) :=
  match e with
  | do_send message recipientRank tag =>
      Some (fst (send w message recipientRank tag), None)
  | do_broadcast message tag =>
      Some (fst (broadcast w message tag), None)
  | do_sendVector message recipientRank tag =>
      Some (fst (sendVector w message recipientRank tag), None)
  | do_broadcastVector message tag =>
      Some (fst (broadcastVector w message tag), None)
  | do_receive message sourceRank tag arrival =>
      received (fun m => Some (timestamp m))
        (receive w message sourceRank tag arrival)
  | do_receiveAny message tag arrival =>
      received (fun m => Some (timestamp m)) (receiveAny w message tag arrival)
  | do_receiveVector message sourceRank tag d arrival =>
      received (fun ms => timestamp <$> head ms)
        (receiveVector w message sourceRank tag d arrival)
  | do_receiveVectorAny message tag d arrival =>
      received (fun ms => timestamp <$> head ms)
        (receiveVectorAny w message tag d arrival)
  end.

(** The clock around one event. *)
Record moment : Type := { before : Z; incoming : option Z; after : Z }.

(** The moments of a run, up to the first event that does not return. *)
Fixpoint run (w : world) (events : list event) : list moment :=
  match events with
  | [] => []
  | e :: rest =>
      match step w e with
      | Some (w', ts) =>
          {| before := lamportClock (self w); incoming := ts;
             after := lamportClock (self w') |} :: run w' rest
      | None => []
      end
  end.

(** The value Lamport's rule asks for after an event. *)
Definition due (m : moment) : Z :=
  match incoming m with
  | None => before m + 1
  | Some ts => Z.max (before m) ts + 1
  end.

(** The rank a communicator send is addressed to. *)
Definition recipient_of (c : call) : option Z :=
  match c with
  | send_one _ recipientRank _ | send_range _ recipientRank _ => Some recipientRank
  | _ => None
  end.

(** The number of communicator sends in [cs] addressed to [recipient]. *)
Definition sends_to (recipient : Z) (cs : list call) : nat :=
  length (List.filter (fun c => match recipient_of c with
                                | Some r => r =? recipient
                                | None => false
                                end) cs).

End Substrate.

(** From here on the payload type is read off the arguments. *)
Arguments timestamp {Payload}.
Arguments payload {Payload}.
Arguments self {Payload}.
Arguments heap {Payload}.
Arguments calls {Payload}.
Arguments send_one {Payload}.
Arguments send_range {Payload}.
Arguments recv_one {Payload}.
Arguments recv_range {Payload}.
Arguments probe {Payload}.
Arguments with_clock {Payload}.
Arguments with_buffer {Payload}.
Arguments with_heap {Payload}.
Arguments logged {Payload}.
Arguments tick {Payload}.
Arguments observe {Payload}.
Arguments setTimestamp {Payload}.
Arguments getTimestamp {Payload}.
Arguments storeInBuffer {Payload}.
Arguments fetchFromBuffer {Payload}.
Arguments send {Payload}.
Arguments to_scope {Payload}.
Arguments broadcast {Payload}.
Arguments stamp_from {Payload}.
Arguments stamp_all {Payload}.
Arguments sendVector {Payload}.
Arguments broadcastVector {Payload}.
Arguments receive {Payload}.
Arguments receiveAny {Payload}.
Arguments ragged {Payload}.
Arguments elements {Payload}.
Arguments get_count {Payload}.
Arguments recv_into {Payload}.
Arguments receiveVector {Payload}.
Arguments receiveVectorAny {Payload}.
Arguments receiveMultiTagHandle {Payload}.
Arguments owned {Payload}.
Arguments do_send {Payload}.
Arguments do_broadcast {Payload}.
Arguments do_sendVector {Payload}.
Arguments do_broadcastVector {Payload}.
Arguments do_receive {Payload}.
Arguments do_receiveAny {Payload}.
Arguments do_receiveVector {Payload}.
Arguments do_receiveVectorAny {Payload}.
Arguments fatal {Payload}.
Arguments step {Payload}.
Arguments run {Payload}.
Arguments recipient_of {Payload}.
Arguments sends_to {Payload}.
Arguments T_default {Payload}.
Arguments handler Payload : clear implicits.

(** ** A concrete process, for the examples

    Rank 5 with the broadcast scope 2, 5, 7, and messages whose payload is
    one integer. *)

Definition letter (ts : Z) : MessageBase Z := {| timestamp := ts; payload := 42 |}.

Definition from (sourceRank tag : Z) : Mpl.status :=
  {| Mpl.source := sourceRank; Mpl.tag := tag |}.

Definition rank5 : world Z := started Z 5 [2; 5; 7].

(** The same process after it has received, from rank 2 on tag 1, a message
    stamped [INT_MAX - 1]: its clock is [INT_MAX]. *)
Definition rank5_late : world Z :=
  observe (Int.INT_MAX - 1) (logged (recv_one 2 1) rank5).

(** Rank 5 with three messages waiting in its buffer. *)
Definition rank5_waiting : world Z :=
  {| self := {| lamportClock := 0; rank := 5; broadcastScope := [2; 5; 7];
                messageBuffer := [(1%positive, from 2 4); (2%positive, from 7 4);
                                  (3%positive, from 2 6)] |};
     heap := {[ 1%positive := letter 9; 2%positive := letter 8;
                3%positive := letter 11 ]};
     calls := [] |}.

(** A session of rank 5: a receive, three kinds of send, a vector receive. *)
Definition session : list (event Z) :=
  [ do_receive (letter 0) 2 1 (letter 10, from 2 1);
    do_send (letter 0) 2 1;
    do_sendVector [letter 0; letter 0; letter 0] 7 1;
    do_broadcast (letter 0) 1;
    do_receiveVector [] 7 3 (elements [letter 3; letter 30]) (from 7 3);
    do_broadcastVector [] 1 ].

(** A session that takes the clock to [INT_MAX] and sends once more. *)
Definition long_session : list (event Z) :=
  [ do_receive (letter 0) 2 1 (letter (Int.INT_MAX - 1), from 2 1);
    do_send (letter 0) 2 1 ].

(** A handler that does nothing. *)
Definition ignore : handler Z := fun _ _ w => Return tt w.

(** ** Further notions: leaks, sending events, a handler that answers *)

(** Nothing dangles and nothing leaks: the buffer owns its copies, and every
    live copy is a buffered one. *)
Definition tidy {Payload : Type} (w : world Payload) : Prop :=
  owned w
  /\ forall p, is_Some (heap w !! p) -> p ∈ map fst (messageBuffer (self w)).

(** The events of the send family. *)
Definition sending {Payload : Type} (e : event Payload) : Prop :=
  match e with
  | do_send _ _ _ | do_broadcast _ _ | do_sendVector _ _ _
  | do_broadcastVector _ _ => True
  | _ => False
  end.

(** A handler of the algorithm layer that answers the sender: it sends
    [answer message] back to the source of the message, on [tag], with
    [send]. *)
Definition reply {Payload : Type}
    (answer : MessageBase Payload -> MessageBase Payload) (tag : Z)
  : handler Payload :=
  fun message status w =>
    Return tt (fst (send w (answer message) (Mpl.source status) tag)).

(** Rank 2, which rank 5 sends to, and a run of rank 5 that only sends. *)
Definition rank2 : world Z := started Z 2 [2; 5; 7].

Definition sends_only : list (event Z) :=
  [ do_send (letter 0) 2 1;
    do_broadcast (letter 0) 1;
    do_sendVector [letter 0; letter 0; letter 0] 7 1;
    do_broadcastVector [] 1 ].

(** ** Facts about the model *)

Section Facts.

Variable Payload : Type.
Variable blank : Payload.

(** *** The [int] *)

Lemma wrap_fits (z : Z) : Int.is_int z -> Int.wrap z = z.
Proof.
  unfold Int.is_int, Int.wrap, Int.INT_MIN, Int.INT_MAX. intros Hz.
  rewrite Z.mod_small; lia.
Qed.

Lemma wrap_is_int (z : Z) : Int.is_int (Int.wrap z).
Proof.
  unfold Int.is_int, Int.wrap, Int.INT_MIN, Int.INT_MAX.
  pose proof (Z.mod_pos_bound (z - -2147483648) (2 ^ 32) ltac:(lia)). lia.
Qed.

(** *** The buffer scan *)

Lemma matches_wanted (sourceRank : Z) (tags : list Z) (e : ptr * Mpl.status) :
  matches sourceRank tags e = true <-> wanted sourceRank tags e.
Proof.
  unfold matches, wanted.
  rewrite andb_true_iff, orb_true_iff, !Z.eqb_eq, existsb_exists.
  split.
  - intros [Hs (t & Hin & Heq)]. apply Z.eqb_eq in Heq. subst t.
    split; [exact Hs | now apply list_elem_of_In].
  - intros [Hs Hin]. split; [exact Hs |].
    exists (Mpl.tag (snd e)). split; [now apply list_elem_of_In | apply Z.eqb_refl].
Qed.

Lemma scan_hit (sourceRank : Z) (tags : list Z) (b : list (ptr * Mpl.status)) e b' :
  scan sourceRank tags b = Some (e, b') ->
  exists pre post,
    b = pre ++ e :: post /\ b' = pre ++ post
    /\ Forall (fun x => ~ wanted sourceRank tags x) pre
    /\ wanted sourceRank tags e.
Proof.
  revert e b'. induction b as [|x rest IH]; intros e b' H; simpl in H; [discriminate|].
  destruct (matches sourceRank tags x) eqn:Hx.
  - injection H as <- <-. exists [], rest.
    split; [reflexivity|]. split; [reflexivity|].
    split; [apply Forall_nil_2 | now apply matches_wanted].
  - destruct (scan sourceRank tags rest) as [[hit rest']|] eqn:Hs; [|discriminate].
    injection H as <- <-.
    destruct (IH _ _ eq_refl) as (pre & post & -> & -> & Hpre & Hw).
    exists (x :: pre), post.
    split; [reflexivity|]. split; [reflexivity|]. split; [|exact Hw].
    apply Forall_cons_2; [|exact Hpre].
    intros Hwx. apply matches_wanted in Hwx. congruence.
Qed.

Lemma scan_miss (sourceRank : Z) (tags : list Z) (b : list (ptr * Mpl.status)) :
  scan sourceRank tags b = None <-> Forall (fun x => ~ wanted sourceRank tags x) b.
Proof.
  induction b as [|x rest IH]; simpl.
  - split; [constructor | reflexivity].
  - destruct (matches sourceRank tags x) eqn:Hx.
    + split; [discriminate|]. intros HF. apply Forall_cons_1 in HF as [Hn _].
      exfalso. apply Hn. now apply matches_wanted.
    + destruct (scan sourceRank tags rest) as [[hit rest']|] eqn:Hs.
      * split; [discriminate|]. intros HF. apply Forall_cons_1 in HF as [_ HF].
        apply IH in HF. discriminate.
      * split; [|reflexivity]. intros _. constructor; [|now apply IH].
        intros Hwx. apply matches_wanted in Hwx. congruence.
Qed.

(** A fetch after [pre], none of which is wanted, finds the first wanted
    entry behind it. *)
Lemma scan_first (sourceRank : Z) (tags : list Z) pre e post :
  Forall (fun x => ~ wanted sourceRank tags x) pre ->
  wanted sourceRank tags e ->
  scan sourceRank tags (pre ++ e :: post) = Some (e, pre ++ post).
Proof.
  intros Hpre Hw. induction Hpre as [|x pre Hx _ IH]; simpl.
  - apply matches_wanted in Hw. now rewrite Hw.
  - destruct (matches sourceRank tags x) eqn:Hm.
    + exfalso. apply Hx. now apply matches_wanted.
    + now rewrite IH.
Qed.

(** *** Sends, receives and ownership *)

(** The broadcast loop only adds calls: one per entry of the scope that is
    not the caller's rank, in the order of the scope. *)
Lemma to_scope_calls (me : Z) (transmit : Z -> call Payload) (scope : list Z) (w : world Payload) :
  calls (to_scope me transmit scope w)
  = calls w ++ map transmit (List.filter (fun r => negb (r =? me)) scope).
Proof.
  revert w. induction scope as [|r rest IH]; intros w; simpl.
  - now rewrite app_nil_r.
  - destruct (r =? me); simpl; rewrite IH; [reflexivity|].
    simpl. now rewrite <- app_assoc.
Qed.

Lemma to_scope_self (me : Z) (transmit : Z -> call Payload) (scope : list Z) (w : world Payload) :
  self (to_scope me transmit scope w) = self w
  /\ heap (to_scope me transmit scope w) = heap w.
Proof.
  revert w. induction scope as [|r rest IH]; intros w; simpl; [easy|].
  destruct (r =? me); [apply IH|].
  destruct (IH (logged (transmit r) w)) as [-> ->]. easy.
Qed.

(** Ownership depends on the buffer and the heap only. *)
Lemma owned_same (w w' : world Payload) :
  messageBuffer (self w') = messageBuffer (self w) -> heap w' = heap w ->
  owned w -> owned w'.
Proof. unfold owned. intros -> ->. easy. Qed.

(** Taking one entry out of the buffer and deleting its copy keeps the rest
    owned. *)
Lemma owned_fetched (w : world Payload) pre (p : ptr) (s : Mpl.status) post :
  messageBuffer (self w) = pre ++ (p, s) :: post ->
  owned w ->
  (p ∉ map fst (pre ++ post))
  /\ owned (with_heap (delete p (heap w)) (with_buffer (pre ++ post) w)).
Proof.
  intros Hb [Hnd Hlive]. rewrite Hb in Hnd, Hlive.
  rewrite map_app in Hnd, Hlive. simpl in Hnd, Hlive.
  apply NoDup_app in Hnd as (Hpre & Hcross & Hpost).
  apply NoDup_cons in Hpost as [Hp Hpost].
  assert (Hnot : p ∉ map fst (pre ++ post)).
  { rewrite map_app. intros Hin. apply elem_of_app in Hin as [Hin|Hin].
    - apply (Hcross p Hin). left.
    - now apply Hp. }
  split; [exact Hnot|]. split; simpl.
  - rewrite map_app. apply NoDup_app. split; [exact Hpre|]. split; [|exact Hpost].
    intros x Hx Hx'. apply (Hcross x Hx). now right.
  - intros q Hq. rewrite lookup_delete_ne.
    + apply Hlive. rewrite map_app in Hq.
      apply elem_of_app in Hq as [Hq|Hq]; apply elem_of_app; [now left|].
      right. now right.
    + intros ->. now apply Hnot.
Qed.

(** Storing a fresh copy keeps the buffer owned. *)
Lemma owned_stored (w : world Payload) (message : MessageBase Payload) (status : Mpl.status) :
  owned w ->
  owned (storeInBuffer (fresh (dom (heap w))) status
           (with_heap (<[fresh (dom (heap w)) := message]> (heap w)) w)).
Proof.
  intros [Hnd Hlive]. pose proof (is_fresh (dom (heap w))) as Hfresh.
  split; simpl; rewrite map_app; simpl.
  - apply NoDup_app. split; [exact Hnd|]. split; [|apply NoDup_singleton].
    intros x Hx Hx'. apply list_elem_of_singleton in Hx'. subst x.
    apply Hfresh. apply elem_of_dom. now apply Hlive.
  - intros q Hq. apply elem_of_app in Hq as [Hq|Hq].
    + destruct (decide (q = fresh (dom (heap w)))) as [->|Hne].
      * rewrite lookup_insert_eq. eauto.
      * rewrite lookup_insert_ne by congruence. now apply Hlive.
    + apply list_elem_of_singleton in Hq. subst q. rewrite lookup_insert_eq. eauto.
Qed.

(** With an owned buffer [receive] returns: the destination holds the
    message received, the clock has observed its timestamp, and the buffer
    is still owned. *)
Lemma receive_returns (w : world Payload) (message : MessageBase Payload) (sourceRank tag : Z)
    (arrival : MessageBase Payload * Mpl.status) :
  owned w ->
  exists status w' got,
    receive w message sourceRank tag arrival = Return status (w', got)
    /\ lamportClock (self w')
       = Int.wrap (Z.max (lamportClock (self w)) (timestamp got) + 1)
    /\ owned w'.
Proof.
  intros Hw. unfold receive, fetchFromBuffer.
  destruct (scan sourceRank [tag] (messageBuffer (self w))) as [[[p s] b']|] eqn:Hs.
  - apply scan_hit in Hs as (pre & post & Hb & -> & _ & _).
    destruct (owned_fetched w pre p s post Hb Hw) as [_ Hw'].
    destruct Hw as [_ Hlive]. simpl.
    destruct (Hlive p) as [copy Hcopy].
    { rewrite Hb, map_app. apply elem_of_app. right. left. }
    rewrite Hcopy. eexists _, _, _. split; [reflexivity|]. split; [reflexivity|].
    revert Hw'. apply owned_same; reflexivity.
  - simpl. eexists _, _, _. split; [reflexivity|]. split; [reflexivity|].
    revert Hw. apply owned_same; reflexivity.
Qed.

(** A probe that is not fatal announces a batch of at least one element, and
    the vector receive returns exactly that batch. *)
Lemma receiveVector_returns (w : world Payload) (message : list (MessageBase Payload))
    (sourceRank tag : Z) (d : pending Payload) (arrival : Mpl.status) :
  get_count d <> Mpl.undefined -> get_count d <> 0 ->
  exists first rest,
    d = elements (first :: rest)
    /\ get_count d = Z.of_nat (length (first :: rest))
    /\ receiveVector blank w message sourceRank tag d arrival
       = Return arrival
           (observe (timestamp first)
              (logged (recv_range (length (first :: rest)) sourceRank tag)
                 (logged (probe sourceRank tag) w)),
            first :: rest).
Proof.
  intros Hu Hz. unfold receiveVector.
  destruct (get_count d =? Mpl.undefined) eqn:E1; [apply Z.eqb_eq in E1; easy|].
  destruct (get_count d =? 0) eqn:E2; [apply Z.eqb_eq in E2; easy|].
  simpl. destruct d as [|batch]; [easy|]. simpl in *.
  destruct (Z.of_nat (length batch) <=? Int.INT_MAX) eqn:E3; [|easy].
  rewrite Nat2Z.id, length_resize, take_ge, drop_ge, app_nil_r
    by (rewrite ?length_resize; lia).
  destruct batch as [|first rest]; [easy|].
  exists first, rest. easy.
Qed.

(** Both broadcasts leave the process as the tick left it, and the heap as
    it was. *)
Lemma broadcast_frame (w : world Payload) (message : MessageBase Payload) (tag : Z) :
  self (fst (broadcast w message tag)) = self (tick w)
  /\ heap (fst (broadcast w message tag)) = heap w.
Proof.
  unfold broadcast. cbn [fst].
  split; [apply to_scope_self | exact (proj2 (to_scope_self _ _ _ (tick w)))].
Qed.

Lemma broadcastVector_frame (w : world Payload) (message : list (MessageBase Payload)) (tag : Z) :
  self (fst (broadcastVector w message tag)) = self (tick w)
  /\ heap (fst (broadcastVector w message tag)) = heap w.
Proof.
  unfold broadcastVector. cbn [fst].
  split; [apply to_scope_self | exact (proj2 (to_scope_self _ _ _ (tick w)))].
Qed.

Lemma owned_started (rank : Z) (scope : list Z) : owned (started Payload rank scope).
Proof.
  split; simpl; [apply NoDup_nil_2|]. intros p Hp. now apply elem_of_nil in Hp.
Qed.

(** An event that is not a fatal vector receive returns; the buffer stays
    owned and the clock is the wrapped value of Lamport's rule. *)
Lemma step_returns (w : world Payload) (e : event Payload) :
  owned w -> ~ fatal e ->
  exists w' ts,
    step blank w e = Some (w', ts)
    /\ owned w'
    /\ lamportClock (self w')
       = Int.wrap (due {| before := lamportClock (self w); incoming := ts;
                          after := lamportClock (self w') |}).
Proof.
  intros Hw Hf. destruct e; simpl in *.
  - eexists _, _. split; [reflexivity|]. split; [|reflexivity].
    revert Hw. apply owned_same; reflexivity.
  - destruct (broadcast_frame w message tag) as [Hs Hh].
    exists (fst (broadcast w message tag)), None.
    split; [reflexivity|]. rewrite Hs. split; [|reflexivity].
    revert Hw. apply owned_same; [now rewrite Hs | now rewrite Hh].
  - eexists _, _. split; [reflexivity|]. split; [|reflexivity].
    revert Hw. apply owned_same; reflexivity.
  - destruct (broadcastVector_frame w message tag) as [Hs Hh].
    exists (fst (broadcastVector w message tag)), None.
    split; [reflexivity|]. rewrite Hs. split; [|reflexivity].
    revert Hw. apply owned_same; [now rewrite Hs | now rewrite Hh].
  - destruct (receive_returns w message sourceRank tag arrival Hw)
      as (s & w' & got & -> & Hc & Hw').
    simpl. eexists _, _. split; [reflexivity|]. easy.
  - unfold receiveAny.
    destruct (receive_returns w message Mpl.any_source tag arrival Hw)
      as (s & w' & got & -> & Hc & Hw').
    simpl. eexists _, _. split; [reflexivity|]. easy.
  - destruct (receiveVector_returns w message sourceRank tag d arrival)
      as (first & rest & _ & _ & ->); [tauto | tauto |].
    simpl. eexists _, _. split; [reflexivity|]. split; [|reflexivity].
    revert Hw. apply owned_same; reflexivity.
  - unfold receiveVectorAny.
    destruct (receiveVector_returns w message Mpl.any_source tag d arrival)
      as (first & rest & _ & _ & ->); [tauto | tauto |].
    simpl. eexists _, _. split; [reflexivity|]. split; [|reflexivity].
    revert Hw. apply owned_same; reflexivity.
Qed.

(** Sends of one message (or one batch) to a list of recipients: a rank gets
    as many as the list names it. *)
Lemma sends_to_recipients (transmit : Z -> call Payload) (recipients : list Z) (r : Z) :
  (forall x, recipient_of (transmit x) = Some x) ->
  sends_to r (map transmit recipients) = count_occ Z.eq_dec recipients r.
Proof.
  intros Hto. unfold sends_to.
  induction recipients as [|x rest IH]; [reflexivity|].
  cbn [map List.filter count_occ]. rewrite Hto.
  destruct (Z.eq_dec x r) as [->|Hne].
  - rewrite Z.eqb_refl. simpl. now rewrite IH.
  - apply Z.eqb_neq in Hne. now rewrite Hne.
Qed.

Lemma count_occ_without (me r : Z) (scope : list Z) :
  count_occ Z.eq_dec (List.filter (fun x => negb (x =? me)) scope) r
  = if r =? me then 0%nat else count_occ Z.eq_dec scope r.
Proof.
  induction scope as [|x rest IH]; simpl; [now destruct (r =? me)|].
  destruct (x =? me) eqn:Hx; simpl.
  - rewrite IH. apply Z.eqb_eq in Hx. subst x.
    destruct (Z.eq_dec me r) as [->|Hne]; [now rewrite Z.eqb_refl|].
    reflexivity.
  - destruct (Z.eq_dec x r) as [->|Hne]; rewrite IH; [|reflexivity].
    now rewrite Hx.
Qed.

(** [receive] on a buffer hit: the first wanted entry is taken, its copy read
    and deleted, and no call is made on the communicator. *)
Lemma receive_buffered (w : world Payload) (message : MessageBase Payload) (sourceRank tag : Z)
    (arrival : MessageBase Payload * Mpl.status) pre (p : ptr) (s : Mpl.status) post
    (copy : MessageBase Payload) :
  messageBuffer (self w) = pre ++ (p, s) :: post ->
  Forall (fun x => ~ wanted sourceRank [tag] x) pre ->
  wanted sourceRank [tag] (p, s) ->
  heap w !! p = Some copy ->
  receive w message sourceRank tag arrival
  = Return s (observe (timestamp copy)
                (with_heap (delete p (heap w)) (with_buffer (pre ++ post) w)),
              copy).
Proof.
  intros Hb Hpre Hw Hcopy. unfold receive, fetchFromBuffer.
  rewrite Hb, (scan_first _ _ _ _ _ Hpre Hw). simpl. now rewrite Hcopy.
Qed.

(** [receive] on a buffer miss: the communicator is asked, once. *)
Lemma receive_direct (w : world Payload) (message : MessageBase Payload) (sourceRank tag : Z)
    (arrival : MessageBase Payload * Mpl.status) :
  scan sourceRank [tag] (messageBuffer (self w)) = None ->
  receive w message sourceRank tag arrival
  = Return (snd arrival)
      (observe (timestamp (fst arrival)) (logged (recv_one sourceRank tag) w),
       fst arrival).
Proof. intros Hs. unfold receive, fetchFromBuffer. now rewrite Hs. Qed.

(** The dispatch step without a handler, and the typed receive that later
    takes the stored message out of the buffer. *)
Lemma dispatch_stores (w : world Payload) (sourceRank tag : Z)
    (messageHandlers : gmap Z (handler Payload)) (arrival : MessageBase Payload * Mpl.status) :
  messageHandlers !! Mpl.tag (snd arrival) = None ->
  exists copy w',
    receiveMultiTagHandle w sourceRank tag messageHandlers arrival = Return false w'
    /\ heap w !! copy = None
    /\ heap w' = <[copy := fst arrival]> (heap w)
    /\ messageBuffer (self w') = messageBuffer (self w) ++ [(copy, snd arrival)]
    /\ lamportClock (self w') = lamportClock (self w)
    /\ calls w' = calls w ++ [recv_one sourceRank tag]
    /\ (owned w -> owned w')
    /\ forall src dest arr,
         src = Mpl.any_source \/ src = Mpl.source (snd arrival) ->
         scan src [Mpl.tag (snd arrival)] (messageBuffer (self w)) = None ->
         exists w'',
           receive w' dest src (Mpl.tag (snd arrival)) arr
           = Return (snd arrival) (w'', fst arrival)
           /\ lamportClock (self w'')
              = Int.wrap (Z.max (lamportClock (self w)) (timestamp (fst arrival)) + 1)
           /\ messageBuffer (self w'') = messageBuffer (self w)
           /\ heap w'' !! copy = None
           /\ calls w'' = calls w'.
Proof.
  intros Hnone. unfold receiveMultiTagHandle, handler in *. cbv zeta. rewrite Hnone.
  set (w0 := logged (recv_one sourceRank tag) w).
  set (copy := fresh (dom (heap w0))).
  assert (Hfresh : heap w !! copy = None).
  { apply not_elem_of_dom. apply (is_fresh (dom (heap w))). }
  eexists copy, _. split; [reflexivity|]. split; [exact Hfresh|].
  split; [reflexivity|]. split; [reflexivity|]. split; [reflexivity|].
  split; [reflexivity|]. split.
  { intros Hw. apply (owned_stored w0 (fst arrival) (snd arrival)).
    revert Hw. apply owned_same; reflexivity. }
  intros src dest arr Hsrc Hscan. apply scan_miss in Hscan.
  eexists. split.
  { apply (receive_buffered _ dest src (Mpl.tag (snd arrival)) arr
             (messageBuffer (self w)) copy (snd arrival) [] (fst arrival)).
    - reflexivity.
    - exact Hscan.
    - split; [|left]. simpl. destruct Hsrc as [->| ->]; [now left | now right].
    - simpl. apply lookup_insert_eq. }
  simpl. split; [reflexivity|]. split; [apply app_nil_r|].
  split; [apply lookup_delete_eq | reflexivity].
Qed.

(** *** The stamping loop *)

(** While the counter stays an [int] the loop stamps every element. *)
Lemma stamp_from_exact (p : ProcessBase) (i : Z) (message : list (MessageBase Payload)) :
  0 <= i ->
  i + Z.of_nat (length message) <= Int.INT_MAX + 1 ->
  stamp_from p i message = map (setTimestamp p) message.
Proof.
  revert i. induction message as [|m rest IH]; intros i Hi Hmax; [reflexivity|].
  cbn [stamp_from map]. cbn [length] in Hmax.
  destruct (i <? 0) eqn:E; [apply Z.ltb_lt in E; lia|].
  destruct rest as [|m' rest']; [reflexivity|].
  rewrite wrap_fits.
  - rewrite IH; [reflexivity | lia | lia].
  - unfold Int.is_int, Int.INT_MIN, Int.INT_MAX in *. cbn [length] in Hmax. lia.
Qed.

Lemma stamp_all_exact (p : ProcessBase) (message : list (MessageBase Payload)) :
  Z.of_nat (length message) <= Int.INT_MAX ->
  stamp_all p message = map (setTimestamp p) message.
Proof. intros Hlen. apply stamp_from_exact; lia. Qed.

(** Past [INT_MAX] the counter has wrapped and the loop is over: the element
    at index [INT_MAX] is the last one stamped. *)
Lemma stamp_from_stops (p : ProcessBase) (last next : MessageBase Payload)
    (rest : list (MessageBase Payload)) :
  stamp_from p Int.INT_MAX (last :: next :: rest)
  = setTimestamp p last :: next :: rest.
Proof. reflexivity. Qed.

(** Whatever its length, the loop changes nothing but timestamps. *)
Lemma stamp_from_payload (p : ProcessBase) (i : Z) (message : list (MessageBase Payload)) :
  map payload (stamp_from p i message) = map payload message.
Proof.
  revert i. induction message as [|m rest IH]; intros i; [reflexivity|].
  cbn [stamp_from]. destruct (i <? 0); [reflexivity|].
  cbn [map]. now rewrite IH.
Qed.

(** ** The claims *)

(** C1 (amended).  Along every run of send, broadcast, sendVector,
    broadcastVector, receive, receiveAny and vector-receive events from a
    process whose buffer is owned, every event whose probe is not fatal
    returns, and at each event whose new clock value fits the 32-bit [int]
    the clock is exactly that value and strictly greater than before: the
    previous clock plus one after a send or broadcast (one increment per
    batch), [max (previous clock, received timestamp) + 1] after a
    receive. *)
Theorem clock_follows_lamport_rule (events : list (event Payload)) (w : world Payload) :
  owned w ->
  Forall (fun e => ~ fatal e) events ->
  length (run blank w events) = length events
  /\ Forall (fun m => Int.is_int (due m) -> after m = due m /\ before m < after m)
       (run blank w events).
Proof.
  revert w. induction events as [|e rest IH]; intros w Hw Hf; simpl.
  - split; [reflexivity | apply Forall_nil_2].
  - apply Forall_cons_1 in Hf as [He Hrest].
    destruct (step_returns w e Hw He) as (w' & ts & -> & Hw' & Hc).
    destruct (IH w' Hw' Hrest) as [Hlen Hall].
    split; [simpl; now rewrite Hlen|].
    apply Forall_cons_2; [|exact Hall].
    simpl. intros Hfit. rewrite (wrap_fits _ Hfit) in Hc.
    split; [exact Hc|]. rewrite Hc. unfold due. simpl. destruct ts; lia.
Qed.

(** C2 (amended).  [send], [broadcast], [sendVector] and [broadcastVector]
    write into the outgoing message, and into every element of an outgoing
    batch of at most [INT_MAX] elements alike, the clock value as it is
    after the one-unit increment of that send event: the new clock, not
    the one before the increment.  The stamped message or batch is what
    the communicator is handed; a batch of any length keeps its payloads. *)
Theorem stamp_is_new_clock (w : world Payload) (message : MessageBase Payload)
    (batch : list (MessageBase Payload)) (recipientRank tag : Z) :
  let now := Int.wrap (lamportClock (self w) + 1) in
  (lamportClock (self (fst (send w message recipientRank tag))) = now
   /\ timestamp (snd (send w message recipientRank tag)) = now
   /\ calls (fst (send w message recipientRank tag))
      = calls w ++ [send_one (snd (send w message recipientRank tag)) recipientRank tag])
  /\ (lamportClock (self (fst (broadcast w message tag))) = now
      /\ timestamp (snd (broadcast w message tag)) = now)
  /\ (lamportClock (self (fst (sendVector w batch recipientRank tag))) = now
      /\ (Z.of_nat (length batch) <= Int.INT_MAX ->
          Forall (fun m => timestamp m = now)
            (snd (sendVector w batch recipientRank tag)))
      /\ map payload (snd (sendVector w batch recipientRank tag)) = map payload batch
      /\ calls (fst (sendVector w batch recipientRank tag))
         = calls w ++ [send_range (snd (sendVector w batch recipientRank tag))
                         recipientRank tag])
  /\ (lamportClock (self (fst (broadcastVector w batch tag))) = now
      /\ (Z.of_nat (length batch) <= Int.INT_MAX ->
          Forall (fun m => timestamp m = now) (snd (broadcastVector w batch tag)))
      /\ map payload (snd (broadcastVector w batch tag)) = map payload batch).
Proof.
  assert (Hall : forall p, Z.of_nat (length batch) <= Int.INT_MAX ->
                           Forall (fun m => timestamp m = lamportClock p)
                             (stamp_all p batch)).
  { intros p Hlen. rewrite (stamp_all_exact p batch Hlen).
    apply Forall_forall. intros m Hm.
    apply list_elem_of_fmap in Hm as (m0 & -> & _). reflexivity. }
  assert (Hpay : forall p, map payload (stamp_all p batch) = map payload batch).
  { intros p. apply stamp_from_payload. }
  cbv zeta. split; [|split; [|split]].
  - repeat split.
  - destruct (broadcast_frame w message tag) as [-> _]. split; reflexivity.
  - split; [reflexivity|]. split; [apply (Hall (self (tick w)))|].
    split; [apply Hpay | reflexivity].
  - destruct (broadcastVector_frame w batch tag) as [-> _].
    split; [reflexivity|]. split; [apply (Hall (self (tick w))) | apply Hpay].
Qed.

(** C3.  [receiveVector] and [receiveVectorAny]: when the probe's count is
    [mpl::undefined] or zero the process exits with [EXIT_FAILURE], which is
    not zero, having made no call but the probe and with the process and the
    destination as they were; otherwise the destination ends as exactly the
    batch announced, its length the probed count, received by one range
    receive of that size. *)
Theorem receiveVector_probe_decides (w : world Payload) (message : list (MessageBase Payload))
    (sourceRank tag : Z) (d : pending Payload) (arrival : Mpl.status) :
  (get_count d = Mpl.undefined \/ get_count d = 0 ->
   receiveVector blank w message sourceRank tag d arrival
   = Exit EXIT_FAILURE (logged (probe sourceRank tag) w, message)
   /\ receiveVectorAny blank w message tag d arrival
      = Exit EXIT_FAILURE (logged (probe Mpl.any_source tag) w, message)
   /\ EXIT_FAILURE <> 0)
  /\ (get_count d <> Mpl.undefined -> get_count d <> 0 ->
      exists got w1 w2,
        d = elements got
        /\ Z.of_nat (length got) = get_count d
        /\ receiveVector blank w message sourceRank tag d arrival = Return arrival (w1, got)
        /\ calls w1 = calls w ++ [probe sourceRank tag;
                                  recv_range (length got) sourceRank tag]
        /\ receiveVectorAny blank w message tag d arrival = Return arrival (w2, got)
        /\ calls w2 = calls w ++ [probe Mpl.any_source tag;
                                  recv_range (length got) Mpl.any_source tag]).
Proof.
  split.
  - intros Hbad.
    assert (Hif : (get_count d =? Mpl.undefined) || (get_count d =? 0) = true).
    { apply orb_true_iff. rewrite !Z.eqb_eq. exact Hbad. }
    unfold receiveVectorAny, receiveVector. rewrite Hif. easy.
  - intros Hu Hz.
    destruct (receiveVector_returns w message sourceRank tag d arrival Hu Hz)
      as (first & rest & Hd & Hn & H1).
    destruct (receiveVector_returns w message Mpl.any_source tag d arrival Hu Hz)
      as (first' & rest' & Hd' & _ & H2).
    rewrite Hd in Hd'. injection Hd' as <- <-.
    eexists _, _, _. split; [exact Hd|]. split; [now rewrite Hn|].
    split; [exact H1|]. split; [simpl; now rewrite <- app_assoc|].
    split; [exact H2|]. simpl. now rewrite <- app_assoc.
Qed.

(** C4 (amended).  [broadcast] stamps the message once, with the new clock,
    and hands the communicator one send of it per entry of the broadcast
    scope other than the caller's own rank, in the order of the scope: none
    to the caller itself, and exactly one to every other rank that a
    duplicate-free scope names.  Whatever the number of recipients, zero
    included, the clock is incremented once: it is the previous clock plus
    one whenever that fits the 32-bit [int]. *)
Theorem broadcast_once_per_entry (w : world Payload) (message : MessageBase Payload) (tag : Z) :
  let me := rank (self w) in
  let scope := broadcastScope (self w) in
  let stamped := snd (broadcast w message tag) in
  let sent := map (fun r => send_one stamped r tag)
                (List.filter (fun r => negb (r =? me)) scope) in
  stamped = setTimestamp (self (tick w)) message
  /\ calls (fst (broadcast w message tag)) = calls w ++ sent
  /\ sends_to me sent = 0%nat
  /\ (forall r, r <> me -> sends_to r sent = count_occ Z.eq_dec scope r)
  /\ (NoDup scope -> forall r, r ∈ scope -> r <> me -> sends_to r sent = 1%nat)
  /\ lamportClock (self (fst (broadcast w message tag)))
     = Int.wrap (lamportClock (self w) + 1)
  /\ (Int.is_int (lamportClock (self w) + 1) ->
      lamportClock (self (fst (broadcast w message tag))) = lamportClock (self w) + 1).
Proof.
  cbv zeta.
  assert (Hcount : forall r,
    sends_to r (map (fun r0 => send_one (snd (broadcast w message tag)) r0 tag)
                  (List.filter (fun r0 => negb (r0 =? rank (self w)))
                     (broadcastScope (self w))))
    = if r =? rank (self w) then 0%nat
      else count_occ Z.eq_dec (broadcastScope (self w)) r).
  { intros r. rewrite sends_to_recipients; [apply count_occ_without|].
    reflexivity. }
  destruct (broadcast_frame w message tag) as [Hs _].
  split; [reflexivity|]. split.
  { unfold broadcast. cbn [fst snd]. exact (to_scope_calls _ _ _ (tick w)). }
  split; [now rewrite Hcount, Z.eqb_refl|]. split.
  { intros r Hr. rewrite Hcount. apply Z.eqb_neq in Hr. now rewrite Hr. }
  split.
  { intros Hnd r Hin Hr. rewrite Hcount. apply Z.eqb_neq in Hr. rewrite Hr.
    apply NoDup_count_occ'; [now apply NoDup_ListNoDup | now apply list_elem_of_In]. }
  rewrite Hs. split; [reflexivity|].
  intros Hfit. simpl. now apply wrap_fits.
Qed.

(** C5 (amended).  One multi-tag dispatch step receives one message.  When
    its tag has a handler, the clock observes the timestamp (it becomes
    [max (clock, timestamp) + 1] whenever that fits the 32-bit [int]), the
    handler is then run on the message and its status, once, from a process
    whose buffer and heap are as before the step, and the step returns
    [true] when the handler returns.  When the tag has no handler, a fresh
    heap copy of the message is appended to the buffer with its status, the
    step returns [false], and a typed receive for that source (or any
    source) and that tag gets the message back, provided no earlier entry of
    the buffer answers it. *)
Theorem dispatch_routes_by_tag (w : world Payload) (sourceRank tag : Z)
    (messageHandlers : gmap Z (handler Payload)) (arrival : MessageBase Payload * Mpl.status) :
  let message := fst arrival in
  let status := snd arrival in
  let observed := observe (timestamp message) (logged (recv_one sourceRank tag) w) in
  (forall handle,
     messageHandlers !! Mpl.tag status = Some handle ->
     receiveMultiTagHandle w sourceRank tag messageHandlers arrival
     = match handle message status observed with
       | Return _ w' => Return true w'
       | Exit code w' => Exit code w'
       | Fault => Fault
       end
     /\ messageBuffer (self observed) = messageBuffer (self w)
     /\ heap observed = heap w
     /\ lamportClock (self observed)
        = Int.wrap (Z.max (lamportClock (self w)) (timestamp message) + 1)
     /\ (Int.is_int (Z.max (lamportClock (self w)) (timestamp message) + 1) ->
         lamportClock (self observed)
         = Z.max (lamportClock (self w)) (timestamp message) + 1))
  /\ (messageHandlers !! Mpl.tag status = None ->
      exists copy w',
        receiveMultiTagHandle w sourceRank tag messageHandlers arrival
        = Return false w'
        /\ heap w !! copy = None
        /\ heap w' = <[copy := message]> (heap w)
        /\ messageBuffer (self w') = messageBuffer (self w) ++ [(copy, status)]
        /\ forall src dest arr,
             src = Mpl.any_source \/ src = Mpl.source status ->
             scan src [Mpl.tag status] (messageBuffer (self w)) = None ->
             exists w'',
               receive w' dest src (Mpl.tag status) arr = Return status (w'', message)
               /\ messageBuffer (self w'') = messageBuffer (self w)).
Proof.
  cbv zeta. split.
  - intros handle Hh. unfold receiveMultiTagHandle, handler in *. cbv zeta. rewrite Hh.
    split; [reflexivity|]. split; [reflexivity|]. split; [reflexivity|].
    split; [reflexivity|]. intros Hfit. simpl. now apply wrap_fits.
  - intros Hnone.
    destruct (dispatch_stores w sourceRank tag messageHandlers arrival Hnone)
      as (copy & w' & Hret & Hfresh & Hheap & Hbuf & _ & _ & _ & Hlater).
    exists copy, w'. split; [exact Hret|]. split; [exact Hfresh|].
    split; [exact Hheap|]. split; [exact Hbuf|].
    intros src dest arr Hsrc Hscan.
    destruct (Hlater src dest arr Hsrc Hscan) as (w'' & Hrecv & _ & Hb'' & _).
    exists w''. easy.
Qed.

(** C10.  A multi-tag dispatch step whose arriving tag has no handler
    returns [false] with the clock unchanged; the clock observes that
    message's timestamp when a typed receive for its source (or any source)
    and its tag fetches it from the buffer, which asks nothing of the
    communicator. *)
Theorem unhandled_message_defers_clock (w : world Payload) (sourceRank tag : Z)
    (messageHandlers : gmap Z (handler Payload)) (arrival : MessageBase Payload * Mpl.status) :
  messageHandlers !! Mpl.tag (snd arrival) = None ->
  exists w',
    receiveMultiTagHandle w sourceRank tag messageHandlers arrival = Return false w'
    /\ lamportClock (self w') = lamportClock (self w)
    /\ forall src dest arr,
         src = Mpl.any_source \/ src = Mpl.source (snd arrival) ->
         scan src [Mpl.tag (snd arrival)] (messageBuffer (self w)) = None ->
         exists w'',
           receive w' dest src (Mpl.tag (snd arrival)) arr
           = Return (snd arrival) (w'', fst arrival)
           /\ lamportClock (self w'')
              = lamportClock (self (observe (timestamp (fst arrival)) w'))
           /\ lamportClock (self w'')
              = Int.wrap (Z.max (lamportClock (self w)) (timestamp (fst arrival)) + 1)
           /\ calls w'' = calls w'.
Proof.
  intros Hnone.
  destruct (dispatch_stores w sourceRank tag messageHandlers arrival Hnone)
    as (copy & w' & Hret & _ & _ & _ & Hclock & _ & _ & Hlater).
  exists w'. split; [exact Hret|]. split; [exact Hclock|].
  intros src dest arr Hsrc Hscan.
  destruct (Hlater src dest arr Hsrc Hscan) as (w'' & Hrecv & Hc & _ & _ & Hcalls).
  exists w''. split; [exact Hrecv|]. split; [|easy].
  simpl. now rewrite Hc, Hclock.
Qed.

(** C6.  [storeInBuffer] appends the entry at the end of the buffer.
    [fetchFromBuffer] returns the first entry, in insertion order, whose
    source is the one asked for (any source for the wildcard) and whose tag
    is among those asked for, and the buffer loses exactly that entry;
    without such an entry it returns none and leaves the world Payload as it is.
    In a buffer that owns its copies the entry fetched is no longer
    there. *)
Theorem buffer_store_then_fetch (w : world Payload) (sourceRank : Z) (tags : list Z) :
  (forall p s, messageBuffer (self (storeInBuffer p s w))
               = messageBuffer (self w) ++ [(p, s)])
  /\ match fetchFromBuffer w sourceRank tags with
     | (Some e, w') =>
         exists pre post,
           messageBuffer (self w) = pre ++ e :: post
           /\ Forall (fun x => ~ wanted sourceRank tags x) pre
           /\ wanted sourceRank tags e
           /\ messageBuffer (self w') = pre ++ post
           /\ heap w' = heap w
           /\ (owned w ->
               (e ∉ messageBuffer (self w'))
               /\ (fst e ∉ map fst (messageBuffer (self w'))))
     | (None, w') =>
         w' = w /\ Forall (fun x => ~ wanted sourceRank tags x) (messageBuffer (self w))
     end.
Proof.
  split; [reflexivity|]. unfold fetchFromBuffer.
  destruct (scan sourceRank tags (messageBuffer (self w))) as [[[p s] b']|] eqn:Hs.
  - apply scan_hit in Hs as (pre & post & Hb & -> & Hpre & Hw).
    exists pre, post. split; [exact Hb|]. split; [exact Hpre|]. split; [exact Hw|].
    split; [reflexivity|]. split; [reflexivity|].
    intros Hown. destruct (owned_fetched w pre p s post Hb Hown) as [Hnot _].
    simpl. split; [|exact Hnot].
    intros Hin. apply Hnot. apply list_elem_of_fmap. now exists (p, s).
  - split; [reflexivity | now apply scan_miss].
Qed.

(** C7.  [receive] asks the buffer first.  On a hit the destination gets the
    buffered copy, the copy is deleted and the communicator is not called;
    on a miss the communicator is called once and the destination gets what
    it delivers.  Either way the clock observes the timestamp of the message
    obtained, once; so the buffered message leaves the same destination and
    the same clock as the same message delivered directly to a process with
    the same clock and no matching entry. *)
Theorem receive_buffer_first (w : world Payload) (message : MessageBase Payload)
    (sourceRank tag : Z) (arrival : MessageBase Payload * Mpl.status) :
  owned w ->
  match fetchFromBuffer w sourceRank [tag] with
  | (Some (p, s), wb) =>
      exists copy w',
        heap w !! p = Some copy
        /\ receive w message sourceRank tag arrival = Return s (w', copy)
        /\ messageBuffer (self w') = messageBuffer (self wb)
        /\ heap w' = delete p (heap w)
        /\ heap w' !! p = None
        /\ calls w' = calls w
        /\ lamportClock (self w') = lamportClock (self (observe (timestamp copy) w))
        /\ forall v dest s',
             scan sourceRank [tag] (messageBuffer (self v)) = None ->
             lamportClock (self v) = lamportClock (self w) ->
             exists v',
               receive v dest sourceRank tag (copy, s') = Return s' (v', copy)
               /\ calls v' = calls v ++ [recv_one sourceRank tag]
               /\ lamportClock (self v') = lamportClock (self w')
  | (None, _) =>
      exists w',
        receive w message sourceRank tag arrival
        = Return (snd arrival) (w', fst arrival)
        /\ messageBuffer (self w') = messageBuffer (self w)
        /\ heap w' = heap w
        /\ calls w' = calls w ++ [recv_one sourceRank tag]
        /\ lamportClock (self w')
           = lamportClock (self (observe (timestamp (fst arrival)) w))
  end.
Proof.
  intros Hown. unfold fetchFromBuffer.
  destruct (scan sourceRank [tag] (messageBuffer (self w))) as [[[p s] b']|] eqn:Hs.
  - apply scan_hit in Hs as (pre & post & Hb & -> & Hpre & Hw).
    destruct Hown as [_ Hlive]. destruct (Hlive p) as [copy Hcopy].
    { rewrite Hb, map_app. apply elem_of_app. right. left. }
    exists copy. eexists. split; [exact Hcopy|]. split.
    { apply (receive_buffered w message sourceRank tag arrival pre p s post copy);
        assumption. }
    simpl. split; [reflexivity|]. split; [reflexivity|].
    split; [apply lookup_delete_eq|]. split; [reflexivity|]. split; [reflexivity|].
    intros v dest s' Hv Hclock. eexists. split.
    { apply (receive_direct v dest sourceRank tag (copy, s') Hv). }
    simpl. now rewrite Hclock.
  - eexists. split; [apply (receive_direct w message sourceRank tag arrival Hs)|].
    easy.
Qed.

(** C8.  [receiveAny] is [receive] with [mpl::any_source] as the source, and
    [receiveVectorAny] is [receiveVector] with it, on every process state,
    destination, tag and delivery. *)
Theorem any_variants_use_wildcard (w : world Payload) (message : MessageBase Payload)
    (batch : list (MessageBase Payload)) (tag : Z) (arrival : MessageBase Payload * Mpl.status)
    (d : pending Payload) (status : Mpl.status) :
  receiveAny w message tag arrival = receive w message Mpl.any_source tag arrival
  /\ receiveVectorAny blank w batch tag d status
     = receiveVector blank w batch Mpl.any_source tag d status.
Proof. split; reflexivity. Qed.

(** C9 (amended).  [sendVector] and [broadcastVector] have no guard on an
    empty vector: the clock is incremented once (to the previous clock plus
    one whenever that fits the 32-bit [int]) and the communicator is handed
    the batch of no elements, once by [sendVector] and once per scope entry
    other than the caller by [broadcastVector]; a [receiveVector] that is
    delivered a batch of no elements exits with [EXIT_FAILURE]. *)
Theorem empty_batch_is_sent (w : world Payload) (recipientRank tag : Z) :
  sendVector w [] recipientRank tag
  = (logged (send_range [] recipientRank tag) (tick w), [])
  /\ snd (broadcastVector w [] tag) = []
  /\ self (fst (broadcastVector w [] tag)) = self (tick w)
  /\ calls (fst (broadcastVector w [] tag))
     = calls w ++ map (fun r => send_range [] r tag)
                    (List.filter (fun r => negb (r =? rank (self w)))
                       (broadcastScope (self w)))
  /\ lamportClock (self (tick w)) = Int.wrap (lamportClock (self w) + 1)
  /\ (Int.is_int (lamportClock (self w) + 1) ->
      lamportClock (self (tick w)) = lamportClock (self w) + 1)
  /\ forall v dest sourceRank tag' arrival,
       receiveVector blank v dest sourceRank tag' (elements []) arrival
       = Exit EXIT_FAILURE (logged (probe sourceRank tag') v, dest).
Proof.
  split; [reflexivity|]. split; [reflexivity|].
  split; [apply broadcastVector_frame|]. split.
  { unfold broadcastVector. cbn [fst]. exact (to_scope_calls _ _ _ (tick w)). }
  split; [reflexivity|]. split; [|reflexivity].
  intros Hfit. simpl. now apply wrap_fits.
Qed.

End Facts.

(** ** The claims on the concrete process *)

Lemma owned_waiting : owned rank5_waiting.
Proof.
  split.
  - apply (bool_decide_unpack _). reflexivity.
  - intros p Hp. simpl in Hp.
    apply elem_of_cons in Hp as [->|Hp]; [now eexists|].
    apply elem_of_cons in Hp as [->|Hp]; [now eexists|].
    apply list_elem_of_singleton in Hp as ->. now eexists.
Qed.

Lemma is_int_by_bounds (z : Z) :
  (Int.INT_MIN <=? z) && (z <=? Int.INT_MAX) = true -> Int.is_int z.
Proof.
  intros H. apply andb_true_iff in H as [H1 H2].
  split; [now apply Z.leb_le | now apply Z.leb_le].
Qed.

(** C1, on a session of rank 5: all six events return, and each leaves the
    clock at the value of Lamport's rule, above the one before. *)
Lemma clock_rule_on_session :
  length (run 0 rank5 session) = length session
  /\ Forall (fun m => Int.is_int (due m) -> after m = due m /\ before m < after m)
       (run 0 rank5 session).
Proof.
  apply (clock_follows_lamport_rule Z 0 session rank5).
  - apply owned_started.
  - unfold session. repeat apply Forall_cons_2; try apply Forall_nil_2;
      simpl; try tauto.
    vm_compute. intros [H|H]; discriminate H.
Defined.

(** C1 as stated fails: rank 5 starts at clock 0, receives a message stamped
    [INT_MAX - 1], which takes its clock to [INT_MAX], and sends; the send
    leaves the clock at [INT_MIN], neither greater than before nor the
    previous value plus one. *)
Lemma clock_rule_breaks_at_INT_MAX :
  run 0 rank5 long_session
  = [ {| before := 0; incoming := Some 2147483646; after := 2147483647 |};
      {| before := 2147483647; incoming := None; after := -2147483648 |} ]
  /\ ~ Forall (fun m => after m = due m /\ before m < after m)
         (run 0 rank5 long_session).
Proof.
  split; [reflexivity|].
  intros H. apply Forall_cons_1 in H as [_ H]. apply Forall_cons_1 in H as [[H _] _].
  vm_compute in H. discriminate H.
Qed.

(** C2 as stated fails: at clock 0 the messages go out stamped 1, the clock
    after the increment, not 0, the clock before it. *)
Lemma stamp_is_not_old_clock :
  lamportClock (self rank5) = 0
  /\ timestamp (snd (send rank5 (letter 99) 2 1)) = 1
  /\ calls (fst (send rank5 (letter 99) 2 1)) = [send_one (letter 1) 2 1]
  /\ map timestamp (snd (sendVector rank5 [letter 99; letter 98] 2 1)) = [1; 1]
  /\ map timestamp (snd (broadcastVector rank5 [letter 99; letter 98] 1)) = [1; 1]
  /\ timestamp (snd (send rank5 (letter 99) 2 1)) <> lamportClock (self rank5).
Proof. repeat split. discriminate. Qed.

(** C2, on rank 5: a batch of two goes out with both elements stamped 1,
    the clock after the increment, and with its payloads. *)
Lemma stamp_is_new_clock_on_rank5 :
  lamportClock (self (fst (sendVector rank5 [letter 99; letter 98] 2 1))) = 1
  /\ Forall (fun m => timestamp m = 1) (snd (sendVector rank5 [letter 99; letter 98] 2 1))
  /\ Forall (fun m => timestamp m = 1) (snd (broadcastVector rank5 [letter 99; letter 98] 1))
  /\ map payload (snd (sendVector rank5 [letter 99; letter 98] 2 1)) = [42; 42].
Proof.
  destruct (stamp_is_new_clock Z rank5 (letter 99) [letter 99; letter 98] 2 1)
    as (_ & _ & (Hclock & Hsend & Hpay & _) & (_ & Hbroadcast & _)).
  assert (Hlen : Z.of_nat (length [letter 99; letter 98]) <= Int.INT_MAX)
    by (apply Z.leb_le; reflexivity).
  split; [exact Hclock|]. split; [exact (Hsend Hlen)|].
  split; [exact (Hbroadcast Hlen) | exact Hpay].
Defined.

(** C3, on rank 5: an empty delivery and a ragged one are fatal and leave
    the destination alone; a delivery of two elements is received whole. *)
Lemma receiveVector_probe_on_rank5 :
  receiveVector 0 rank5 [letter 0] 2 1 (elements []) (from 2 1)
  = Exit EXIT_FAILURE (logged (probe 2 1) rank5, [letter 0])
  /\ receiveVectorAny 0 rank5 [letter 0] 1 ragged (from 2 1)
     = Exit EXIT_FAILURE (logged (probe Mpl.any_source 1) rank5, [letter 0])
  /\ exists w',
       receiveVector 0 rank5 [letter 0] 2 1 (elements [letter 3; letter 4]) (from 2 1)
       = Return (from 2 1) (w', [letter 3; letter 4])
       /\ calls w' = [probe 2 1; recv_range 2 2 1].
Proof.
  split; [|split].
  - apply (receiveVector_probe_decides Z 0 rank5 [letter 0] 2 1 (elements [])
             (from 2 1)).
    right. reflexivity.
  - apply (receiveVector_probe_decides Z 0 rank5 [letter 0] 2 1 ragged (from 2 1)).
    left. reflexivity.
  - destruct (proj2 (receiveVector_probe_decides Z 0 rank5 [letter 0] 2 1
                       (elements [letter 3; letter 4]) (from 2 1)))
      as (got & w1 & w2 & Hd & _ & Hr & Hc & _); [discriminate | discriminate |].
    injection Hd as <-. exists w1. split; [exact Hr | exact Hc].
Defined.

(** C4, the spec's example: rank 5 with scope 2, 5, 7 broadcasts to 2 and
    7, once each, and its clock goes from 0 to 1. *)
Lemma broadcast_from_rank5 :
  calls (fst (broadcast rank5 (letter 99) 1))
  = [send_one (letter 1) 2 1; send_one (letter 1) 7 1]
  /\ sends_to 5 (calls (fst (broadcast rank5 (letter 99) 1))) = 0%nat
  /\ sends_to 2 (calls (fst (broadcast rank5 (letter 99) 1))) = 1%nat
  /\ sends_to 7 (calls (fst (broadcast rank5 (letter 99) 1))) = 1%nat
  /\ lamportClock (self (fst (broadcast rank5 (letter 99) 1)))
     = lamportClock (self rank5) + 1.
Proof.
  destruct (broadcast_once_per_entry Z rank5 (letter 99) 1)
    as (_ & Hcalls & Hme & _ & Honce & _ & Hfit).
  assert (Hnd : NoDup (broadcastScope (self rank5)))
    by (apply (bool_decide_unpack _); reflexivity).
  split; [exact Hcalls|]. split; [exact Hme|].
  split; [apply (Honce Hnd 2); [apply list_elem_of_here | discriminate]|].
  split; [apply (Honce Hnd 7); [do 2 apply list_elem_of_further; apply list_elem_of_here
                               | discriminate]|].
  apply Hfit. apply is_int_by_bounds. reflexivity.
Defined.

(** C4 as stated fails: from the clock [INT_MAX], which rank 5 reaches by
    one receive, a broadcast leaves the clock at [INT_MIN]; and a scope that
    names rank 2 twice gets rank 2 the message twice. *)
Lemma broadcast_breaks_at_INT_MAX :
  receive rank5 (letter 0) 2 1 (letter (Int.INT_MAX - 1), from 2 1)
  = Return (from 2 1) (rank5_late, letter (Int.INT_MAX - 1))
  /\ lamportClock (self rank5_late) = 2147483647
  /\ lamportClock (self (fst (broadcast rank5_late (letter 0) 1))) = -2147483648
  /\ lamportClock (self (fst (broadcast rank5_late (letter 0) 1)))
     <> lamportClock (self rank5_late) + 1
  /\ sends_to 2 (calls (fst (broadcast (started Z 5 [2; 2; 5]) (letter 0) 1))) = 2%nat.
Proof. repeat split. discriminate. Qed.

(** C5, the spec's example: with a handler for tag 3 only, a message on
    tag 3 runs the handler and leaves the buffer empty; one on tag 4 is
    buffered, and a receive for tag 4 returns it. *)
Lemma dispatch_on_rank5 :
  receiveMultiTagHandle rank5 2 3 {[ 3 := ignore ]} (letter 9, from 2 3)
  = Return true (observe 9 (logged (recv_one 2 3) rank5))
  /\ messageBuffer (self (observe 9 (logged (recv_one 2 3) rank5))) = []
  /\ lamportClock (self (observe 9 (logged (recv_one 2 3) rank5))) = 10
  /\ exists copy w' w'',
       receiveMultiTagHandle rank5 2 4 {[ 3 := ignore ]} (letter 9, from 2 4)
       = Return false w'
       /\ messageBuffer (self w') = [(copy, from 2 4)]
       /\ receive w' (letter 0) 2 4 (letter 50, from 2 4)
          = Return (from 2 4) (w'', letter 9).
Proof.
  destruct (dispatch_routes_by_tag Z rank5 2 3 {[ 3 := ignore ]} (letter 9, from 2 3))
    as [Hhandled _].
  destruct (Hhandled ignore eq_refl) as (Hrun & Hbuf & _ & _ & Hfit).
  split; [exact Hrun|]. split; [exact Hbuf|].
  split; [apply Hfit; apply is_int_by_bounds; reflexivity|].
  destruct (dispatch_routes_by_tag Z rank5 2 4 {[ 3 := ignore ]} (letter 9, from 2 4))
    as [_ Hstored].
  destruct (Hstored eq_refl) as (copy & w' & Hret & _ & _ & Hb & Hlater).
  destruct (Hlater 2 (letter 0) (letter 50, from 2 4) (or_intror eq_refl) eq_refl)
    as (w'' & Hrecv & _).
  exists copy, w', w''. split; [exact Hret|]. split; [exact Hb | exact Hrecv].
Defined.

(** C5 as stated fails: a handled message stamped [INT_MAX] leaves the clock
    of rank 5 at [INT_MIN], not at [max (0, INT_MAX) + 1]. *)
Lemma dispatch_breaks_at_INT_MAX :
  exists w',
    receiveMultiTagHandle rank5 2 3 {[ 3 := ignore ]} (letter Int.INT_MAX, from 2 3)
    = Return true w'
    /\ lamportClock (self w') = -2147483648
    /\ lamportClock (self w') <> Z.max (lamportClock (self rank5)) Int.INT_MAX + 1.
Proof. eexists. split; [reflexivity|]. split; [reflexivity | discriminate]. Qed.

(** C6, on the waiting buffer: a fetch for any source and tag 4 takes the
    first of the two entries of tag 4 and leaves the other two entries; the
    entry taken is not among them; a fetch for tag 9 finds nothing. *)
Lemma fetch_on_waiting_buffer :
  fetchFromBuffer rank5_waiting Mpl.any_source [4]
  = (Some (1%positive, from 2 4),
     with_buffer [(2%positive, from 7 4); (3%positive, from 2 6)] rank5_waiting)
  /\ ((1%positive, from 2 4)
        ∉ messageBuffer (self (snd (fetchFromBuffer rank5_waiting Mpl.any_source [4]))))
  /\ fetchFromBuffer rank5_waiting 2 [9] = (None, rank5_waiting).
Proof.
  split; [reflexivity|]. split; [|reflexivity].
  destruct (buffer_store_then_fetch Z rank5_waiting Mpl.any_source [4]) as [_ Hfetch].
  change (fetchFromBuffer rank5_waiting Mpl.any_source [4])
    with (Some (1%positive, from 2 4),
          with_buffer [(2%positive, from 7 4); (3%positive, from 2 6)] rank5_waiting)
    in Hfetch.
  destruct Hfetch as (pre & post & _ & _ & _ & _ & _ & Hgone).
  apply Hgone. apply owned_waiting.
Defined.

(** C7, on the waiting buffer: the receive for rank 7 and tag 4 returns the
    buffered message stamped 8 without calling the communicator and deletes
    the copy; the clock ends at 9, as it does when rank 5 with an empty
    buffer is delivered the same message. *)
Lemma receive_on_waiting_buffer :
  exists w' v',
    receive rank5_waiting (letter 0) 7 4 (letter 50, from 7 4)
    = Return (from 7 4) (w', letter 8)
    /\ heap w' !! 2%positive = None
    /\ calls w' = []
    /\ receive rank5 (letter 0) 7 4 (letter 8, from 7 4)
       = Return (from 7 4) (v', letter 8)
    /\ lamportClock (self v') = lamportClock (self w')
    /\ lamportClock (self w') = 9.
Proof.
  pose proof (receive_buffer_first Z rank5_waiting (letter 0) 7 4
                (letter 50, from 7 4) owned_waiting) as Hhit.
  change (fetchFromBuffer rank5_waiting 7 [4])
    with (Some (2%positive, from 7 4),
          with_buffer [(1%positive, from 2 4); (3%positive, from 2 6)] rank5_waiting)
    in Hhit.
  destruct Hhit as (copy & w' & Hcopy & Hrecv & _ & _ & Hgone & Hcalls & Hclock & Hsame).
  assert (copy = letter 8) as ->
    by (vm_compute in Hcopy; injection Hcopy as <-; reflexivity).
  destruct (Hsame rank5 (letter 0) (from 7 4) eq_refl eq_refl)
    as (v' & Hdirect & _ & Heq).
  exists w', v'. split; [exact Hrecv|]. split; [exact Hgone|].
  split; [exact Hcalls|]. split; [exact Hdirect|]. split; [exact Heq|].
  rewrite Hclock. reflexivity.
Defined.

(** C9, on rank 5: the empty vector is sent, and the clock goes from 0 to
    1. *)
Lemma empty_batch_from_rank5 :
  sendVector rank5 [] 2 1 = (logged (send_range [] 2 1) (tick rank5), [])
  /\ calls (fst (broadcastVector rank5 [] 1)) = [send_range [] 2 1; send_range [] 7 1]
  /\ lamportClock (self (tick rank5)) = lamportClock (self rank5) + 1
  /\ receiveVector 0 rank5 [letter 0] 5 1 (elements []) (from 5 1)
     = Exit EXIT_FAILURE (logged (probe 5 1) rank5, [letter 0]).
Proof.
  destruct (empty_batch_is_sent Z 0 rank5 2 1)
    as (Hsend & _ & _ & Hcalls & _ & Hfit & Hfatal).
  split; [exact Hsend|]. split; [exact Hcalls|].
  split; [apply Hfit; apply is_int_by_bounds; reflexivity | apply Hfatal].
Defined.

(** C9 as stated fails: at the clock [INT_MAX] the empty batch is sent and
    the clock ends at [INT_MIN], not one above. *)
Lemma empty_batch_breaks_at_INT_MAX :
  lamportClock (self rank5_late) = 2147483647
  /\ calls (fst (sendVector rank5_late [] 2 1)) = [recv_one 2 1; send_range [] 2 1]
  /\ lamportClock (self (fst (sendVector rank5_late [] 2 1))) = -2147483648
  /\ lamportClock (self (fst (sendVector rank5_late [] 2 1)))
     <> lamportClock (self rank5_late) + 1.
Proof. repeat split. discriminate. Qed.

(** C10, on rank 5: a message stamped 9 on the unhandled tag 4 leaves the
    clock at 0; the receive that fetches it takes the clock to 10. *)
Lemma unhandled_on_rank5 :
  exists w' w'',
    receiveMultiTagHandle rank5 2 4 {[ 3 := ignore ]} (letter 9, from 2 4)
    = Return false w'
    /\ lamportClock (self w') = 0
    /\ receive w' (letter 0) Mpl.any_source 4 (letter 50, from 2 4)
       = Return (from 2 4) (w'', letter 9)
    /\ lamportClock (self w'') = 10
    /\ calls w'' = calls w'.
Proof.
  assert (Hnone : ({[ 3 := ignore ]} : gmap Z (handler Z))
                  !! Mpl.tag (snd (letter 9, from 2 4)) = None)
    by (vm_compute; reflexivity).
  destruct (unhandled_message_defers_clock Z rank5 2 4 {[ 3 := ignore ]}
              (letter 9, from 2 4) Hnone) as (w' & Hret & Hclock & Hlater).
  destruct (Hlater Mpl.any_source (letter 0) (letter 50, from 2 4)
              (or_introl eq_refl) eq_refl) as (w'' & Hrecv & _ & Hc & Hcalls).
  exists w', w''. split; [exact Hret|]. split; [exact Hclock|].
  split; [exact Hrecv|]. split; [exact Hc | exact Hcalls].
Defined.

(** ** Beyond the claims: how the operations compose *)

Section Beyond.

Variable Payload : Type.
Variable blank : Payload.

(** A sending event returns, leaves the process but for its clock and the
    heap as they were, and adds nothing but sends to the communicator's
    calls. *)
Lemma sending_frame (w : world Payload) (e : event Payload) :
  sending e ->
  exists w',
    step blank w e = Some (w', None)
    /\ self w' = self (tick w)
    /\ heap w' = heap w
    /\ exists sent,
         calls w' = calls w ++ sent
         /\ Forall (fun c => is_Some (recipient_of c)) sent.
Proof.
  intros He. destruct e; simpl in He; try contradiction.
  - eexists. split; [reflexivity|]. split; [reflexivity|]. split; [reflexivity|].
    eexists. split; [reflexivity|]. apply Forall_singleton. now eexists.
  - destruct (broadcast_frame Payload w message tag) as [Hs Hh].
    exists (fst (broadcast w message tag)).
    split; [reflexivity|]. split; [exact Hs|]. split; [exact Hh|].
    eexists. split.
    { unfold broadcast. cbn [fst]. exact (to_scope_calls Payload _ _ _ (tick w)). }
    apply Forall_forall. intros c Hc.
    apply list_elem_of_fmap in Hc as (r & -> & _). now eexists.
  - eexists. split; [reflexivity|]. split; [reflexivity|]. split; [reflexivity|].
    eexists. split; [reflexivity|]. apply Forall_singleton. now eexists.
  - destruct (broadcastVector_frame Payload w message tag) as [Hs Hh].
    exists (fst (broadcastVector w message tag)).
    split; [reflexivity|]. split; [exact Hs|]. split; [exact Hh|].
    eexists. split.
    { unfold broadcastVector. cbn [fst].
      exact (to_scope_calls Payload _ _ _ (tick w)). }
    apply Forall_forall. intros c Hc.
    apply list_elem_of_fmap in Hc as (r & -> & _). now eexists.
Qed.

(** X1.  Causal order of one message: when a process sends a message and
    another receives it from the communicator, its buffer holding nothing
    that answers the receive, the receiver's clock after the receive is
    above the sender's clock at the send (the stamp) and above its own
    clock before, provided the receiver's new clock fits the [int]; the
    payload arrives as it was sent. *)
Theorem send_precedes_receive (sender receiver : world Payload)
    (message dest : MessageBase Payload) (recipientRank tag sourceRank tag' : Z)
    (status : Mpl.status) :
  scan sourceRank [tag'] (messageBuffer (self receiver)) = None ->
  Int.is_int (Z.max (lamportClock (self receiver))
                (lamportClock (self (fst (send sender message recipientRank tag)))) + 1) ->
  exists receiver',
    receive receiver dest sourceRank tag'
      (snd (send sender message recipientRank tag), status)
    = Return status (receiver', snd (send sender message recipientRank tag))
    /\ payload (snd (send sender message recipientRank tag)) = payload message
    /\ lamportClock (self (fst (send sender message recipientRank tag)))
       < lamportClock (self receiver')
    /\ lamportClock (self receiver) < lamportClock (self receiver').
Proof.
  intros Hmiss Hfit.
  exists (observe (timestamp (snd (send sender message recipientRank tag)))
            (logged (recv_one sourceRank tag') receiver)).
  split.
  { exact (receive_direct Payload receiver dest sourceRank tag'
             (snd (send sender message recipientRank tag), status) Hmiss). }
  split; [reflexivity|].
  change (lamportClock (self (observe
            (timestamp (snd (send sender message recipientRank tag)))
            (logged (recv_one sourceRank tag') receiver))))
    with (Int.wrap (Z.max (lamportClock (self receiver))
                      (lamportClock (self (fst (send sender message recipientRank tag))))
                    + 1)).
  rewrite (wrap_fits _ Hfit). lia.
Qed.

(** X2.  Round trip of a batch: what [sendVector] hands the communicator,
    when it has between one and [INT_MAX] elements, comes out of
    [receiveVector] whole and in order, whatever the destination held
    before and whatever its size was: the same payloads, every element
    stamped with the sender's clock at the send; and the receiver's clock
    ends above that stamp, provided its new value fits the [int]. *)
Theorem sendVector_receiveVector_round_trip (sender receiver : world Payload)
    (batch dest : list (MessageBase Payload))
    (recipientRank tag sourceRank tag' : Z) (status : Mpl.status) :
  batch <> [] ->
  Z.of_nat (length batch) <= Int.INT_MAX ->
  Int.is_int (Z.max (lamportClock (self receiver))
                (lamportClock (self (fst (sendVector sender batch recipientRank tag))))
              + 1) ->
  exists receiver',
    receiveVector blank receiver dest sourceRank tag'
      (elements (snd (sendVector sender batch recipientRank tag))) status
    = Return status (receiver', snd (sendVector sender batch recipientRank tag))
    /\ map payload (snd (sendVector sender batch recipientRank tag))
       = map payload batch
    /\ Forall (fun m => timestamp m
                        = lamportClock (self (fst (sendVector sender batch
                                                     recipientRank tag))))
         (snd (sendVector sender batch recipientRank tag))
    /\ messageBuffer (self receiver') = messageBuffer (self receiver)
    /\ lamportClock (self (fst (sendVector sender batch recipientRank tag)))
       < lamportClock (self receiver').
Proof.
  intros Hne Hlen Hfit.
  set (sent := snd (sendVector sender batch recipientRank tag)) in *.
  assert (Hsent : sent = map (setTimestamp (self (tick sender))) batch)
    by (apply stamp_all_exact; exact Hlen).
  assert (Hcount : get_count (elements sent) = Z.of_nat (length batch)).
  { simpl. rewrite Hsent, length_map.
    destruct (Z.of_nat (length batch) <=? Int.INT_MAX) eqn:E; [reflexivity|].
    apply Z.leb_gt in E. lia. }
  assert (Hpos : (0 < length batch)%nat) by (destruct batch; [easy | simpl; lia]).
  destruct (receiveVector_returns Payload blank receiver dest sourceRank tag'
              (elements sent) status) as (first & rest & Hd & _ & Hret).
  { rewrite Hcount. unfold Mpl.undefined. clear -Hpos. lia. }
  { rewrite Hcount. clear -Hpos. lia. }
  injection Hd as Hd. eexists. split; [rewrite Hret, <- Hd; reflexivity|].
  split; [rewrite Hsent, map_map; reflexivity|].
  assert (Hall : Forall (fun m => timestamp m = lamportClock (self (tick sender))) sent).
  { rewrite Hsent. apply Forall_forall. intros m Hm.
    apply list_elem_of_fmap in Hm as (m0 & -> & _). reflexivity. }
  split; [exact Hall|]. split; [reflexivity|].
  rewrite Hd in Hall. apply Forall_cons_1 in Hall as [Hfirst _].
  change (lamportClock (self (fst (sendVector sender batch recipientRank tag))))
    with (lamportClock (self (tick sender))) in *.
  remember (lamportClock (self (tick sender))) as c eqn:Hc.
  simpl. rewrite Hfirst. rewrite (wrap_fits _ Hfit). clear. lia.
Qed.

(** A scope that names only the caller has no recipient. *)
Lemma scope_of_self_only (me : Z) (scope : list Z) :
  Forall (fun r => r = me) scope ->
  List.filter (fun r => negb (r =? me)) scope = [].
Proof.
  induction 1 as [|r rest Hr _ IH]; [reflexivity|].
  simpl. subst r. now rewrite Z.eqb_refl.
Qed.

(** X3.  [broadcastVector] stamps the batch once and hands the communicator
    that one stamped batch once per entry of the broadcast scope other than
    the caller's own rank, in the order of the scope: never to the caller,
    exactly once to every other rank of a duplicate-free scope.  With a
    scope that is empty or names only the caller nothing is sent, and the
    clock is incremented all the same. *)
Theorem broadcastVector_once_per_entry (w : world Payload)
    (batch : list (MessageBase Payload)) (tag : Z) :
  let me := rank (self w) in
  let scope := broadcastScope (self w) in
  let stamped := snd (broadcastVector w batch tag) in
  let sent := map (fun r => send_range stamped r tag)
                (List.filter (fun r => negb (r =? me)) scope) in
  calls (fst (broadcastVector w batch tag)) = calls w ++ sent
  /\ sends_to me sent = 0%nat
  /\ (forall r, r <> me -> sends_to r sent = count_occ Z.eq_dec scope r)
  /\ (NoDup scope -> forall r, r ∈ scope -> r <> me -> sends_to r sent = 1%nat)
  /\ (Forall (fun r => r = me) scope ->
      calls (fst (broadcastVector w batch tag)) = calls w
      /\ lamportClock (self (fst (broadcastVector w batch tag)))
         = Int.wrap (lamportClock (self w) + 1)).
Proof.
  cbv zeta.
  assert (Hcount : forall r,
    sends_to r (map (fun r0 => send_range (snd (broadcastVector w batch tag)) r0 tag)
                  (List.filter (fun r0 => negb (r0 =? rank (self w)))
                     (broadcastScope (self w))))
    = if r =? rank (self w) then 0%nat
      else count_occ Z.eq_dec (broadcastScope (self w)) r).
  { intros r. rewrite sends_to_recipients; [apply count_occ_without | reflexivity]. }
  assert (Hcalls : calls (fst (broadcastVector w batch tag))
                   = calls w ++ map (fun r => send_range
                                       (snd (broadcastVector w batch tag)) r tag)
                               (List.filter (fun r => negb (r =? rank (self w)))
                                  (broadcastScope (self w)))).
  { unfold broadcastVector. cbn [fst snd].
    exact (to_scope_calls Payload _ _ _ (tick w)). }
  split; [exact Hcalls|].
  split; [now rewrite Hcount, Z.eqb_refl|]. split.
  { intros r Hr. rewrite Hcount. apply Z.eqb_neq in Hr. now rewrite Hr. }
  split.
  { intros Hnd r Hin Hr. rewrite Hcount. apply Z.eqb_neq in Hr. rewrite Hr.
    apply NoDup_count_occ'; [now apply NoDup_ListNoDup | now apply list_elem_of_In]. }
  intros Hself. destruct (broadcastVector_frame Payload w batch tag) as [Hs _].
  split; [|now rewrite Hs].
  rewrite Hcalls.
  rewrite (scope_of_self_only _ _ Hself). apply app_nil_r.
Qed.

(** X4.  Sending never touches what is buffered: [send], [broadcast],
    [sendVector] and [broadcastVector] leave the rank, the broadcast scope,
    the buffer and the heap copies as they were, and every communicator call
    they make is a send, none a receive or a probe: one call for [send] and
    [sendVector], one per scope entry other than the caller for the
    broadcasts. *)
Theorem sending_leaves_buffer_alone (w : world Payload) (e : event Payload) :
  sending e ->
  exists w' sent,
    step blank w e = Some (w', None)
    /\ rank (self w') = rank (self w)
    /\ broadcastScope (self w') = broadcastScope (self w)
    /\ messageBuffer (self w') = messageBuffer (self w)
    /\ heap w' = heap w
    /\ calls w' = calls w ++ sent
    /\ Forall (fun c => is_Some (recipient_of c)) sent
    /\ length sent
       = match e with
         | do_broadcast _ _ | do_broadcastVector _ _ =>
             length (List.filter (fun r => negb (r =? rank (self w)))
                       (broadcastScope (self w)))
         | _ => 1%nat
         end.
Proof.
  intros He. destruct (sending_frame w e He) as (w' & Hstep & Hs & Hh & sent & Hc & Hall).
  exists w', sent. split; [exact Hstep|]. rewrite Hs.
  split; [reflexivity|]. split; [reflexivity|]. split; [reflexivity|].
  split; [exact Hh|]. split; [exact Hc|]. split; [exact Hall|].
  assert (Hlen : length (calls w') = (length (calls w) + length sent)%nat)
    by (rewrite Hc; apply length_app).
  destruct e; simpl in He; try contradiction; simpl in Hstep;
    injection Hstep as <-.
  - simpl in Hlen. rewrite length_app in Hlen. simpl in Hlen. lia.
  - unfold broadcast in Hlen. cbn [fst] in Hlen.
    rewrite (to_scope_calls Payload _ _ _ (tick w)), length_app, length_map in Hlen.
    simpl in Hlen. lia.
  - simpl in Hlen. rewrite length_app in Hlen. simpl in Hlen. lia.
  - unfold broadcastVector in Hlen. cbn [fst] in Hlen.
    rewrite (to_scope_calls Payload _ _ _ (tick w)), length_app, length_map in Hlen.
    simpl in Hlen. lia.
Qed.

(** X5.  [receiveVector] never reads [message[0]] of an empty vector and
    never looks at the buffer: for every delivery it either exits with
    [EXIT_FAILURE], the clock and the destination untouched, or returns a
    destination of at least one element; either way the buffer and the heap
    copies are as before, also when the buffer holds an entry for that
    source and tag. *)
Theorem receiveVector_bypasses_buffer (w : world Payload)
    (message : list (MessageBase Payload)) (sourceRank tag : Z)
    (d : pending Payload) (arrival : Mpl.status) :
  match receiveVector blank w message sourceRank tag d arrival with
  | Return status (w', got) =>
      status = arrival
      /\ got <> []
      /\ d = elements got
      /\ messageBuffer (self w') = messageBuffer (self w)
      /\ heap w' = heap w
  | Exit code (w', got) =>
      code = EXIT_FAILURE
      /\ got = message
      /\ self w' = self w
      /\ heap w' = heap w
      /\ (d = ragged \/ d = elements [] \/ exists batch,
            d = elements batch /\ Int.INT_MAX < Z.of_nat (length batch))
  | Fault => False
  end.
Proof.
  destruct (Z.eq_dec (get_count d) Mpl.undefined) as [Hu|Hu];
    [|destruct (Z.eq_dec (get_count d) 0) as [Hz|Hz]].
  - unfold receiveVector. rewrite Hu. simpl.
    split; [reflexivity|]. split; [reflexivity|]. split; [reflexivity|].
    split; [reflexivity|].
    destruct d as [|batch]; [now left|]. right. right. exists batch.
    split; [reflexivity|]. simpl in Hu.
    destruct (Z.of_nat (length batch) <=? Int.INT_MAX) eqn:E.
    + unfold Mpl.undefined in Hu. lia.
    + now apply Z.leb_gt in E.
  - unfold receiveVector. rewrite Hz. simpl.
    split; [reflexivity|]. split; [reflexivity|]. split; [reflexivity|].
    split; [reflexivity|].
    destruct d as [|batch]; [now left|]. right. left. simpl in Hz.
    destruct (Z.of_nat (length batch) <=? Int.INT_MAX) eqn:E.
    + destruct batch; [reflexivity | simpl in Hz; lia].
    + discriminate Hz.
  - destruct (receiveVector_returns Payload blank w message sourceRank tag d arrival
                Hu Hz) as (first & rest & Hd & _ & ->).
    split; [reflexivity|]. split; [discriminate|]. split; [exact Hd|].
    split; reflexivity.
Qed.

(** Tidiness depends on the buffer and the heap only. *)
Lemma tidy_same (w w' : world Payload) :
  messageBuffer (self w') = messageBuffer (self w) -> heap w' = heap w ->
  tidy w -> tidy w'.
Proof. unfold tidy, owned. intros -> ->. easy. Qed.

Lemma tidy_fetched (w : world Payload) pre (p : ptr) (s : Mpl.status) post :
  messageBuffer (self w) = pre ++ (p, s) :: post ->
  tidy w ->
  tidy (with_heap (delete p (heap w)) (with_buffer (pre ++ post) w)).
Proof.
  intros Hb [Hown Hleak].
  destruct (owned_fetched Payload w pre p s post Hb Hown) as [_ Hown'].
  split; [exact Hown'|]. simpl. intros q Hq.
  destruct (decide (q = p)) as [->|Hne].
  - rewrite lookup_delete_eq in Hq. now destruct Hq.
  - rewrite lookup_delete_ne in Hq by congruence.
    apply Hleak in Hq. rewrite Hb in Hq. rewrite map_app in *.
    apply elem_of_app in Hq as [Hq|Hq]; apply elem_of_app; [now left|].
    simpl in Hq. apply elem_of_cons in Hq as [Hq|Hq]; [congruence | now right].
Qed.

Lemma tidy_stored (w : world Payload) (message : MessageBase Payload)
    (status : Mpl.status) :
  tidy w ->
  tidy (storeInBuffer (fresh (dom (heap w))) status
          (with_heap (<[fresh (dom (heap w)) := message]> (heap w)) w)).
Proof.
  intros [Hown Hleak]. split; [now apply owned_stored|].
  simpl. intros q Hq. rewrite map_app. apply elem_of_app.
  destruct (decide (q = fresh (dom (heap w)))) as [->|Hne].
  - right. simpl. left.
  - left. rewrite lookup_insert_ne in Hq by congruence. now apply Hleak.
Qed.

Lemma receive_keeps_tidy (w : world Payload) (message : MessageBase Payload)
    (sourceRank tag : Z) (arrival : MessageBase Payload * Mpl.status) :
  tidy w ->
  exists status w' got,
    receive w message sourceRank tag arrival = Return status (w', got) /\ tidy w'.
Proof.
  intros Hw. unfold receive, fetchFromBuffer.
  destruct (scan sourceRank [tag] (messageBuffer (self w))) as [[[p s] b']|] eqn:Hs.
  - apply scan_hit in Hs as (pre & post & Hb & -> & _ & _).
    pose proof (tidy_fetched w pre p s post Hb Hw) as Hw'.
    destruct Hw as [[_ Hlive] _]. simpl.
    destruct (Hlive p) as [copy Hcopy].
    { rewrite Hb, map_app. apply elem_of_app. right. left. }
    rewrite Hcopy. eexists _, _, _. split; [reflexivity|].
    revert Hw'. apply tidy_same; reflexivity.
  - simpl. eexists _, _, _. split; [reflexivity|].
    revert Hw. apply tidy_same; reflexivity.
Qed.

(** X6.  No copy dangles and none leaks.  A process starts with an empty
    buffer and no heap copy; every send, broadcast and receive event that
    returns, and every dispatch step that buffers a message, keeps the
    buffered pointers distinct and live and keeps every live copy in the
    buffer: [new T(message)] is always stored, and a copy is deleted only
    once it has been fetched.  A dispatch step that buffers makes the
    buffer one entry longer. *)
Theorem buffer_copies_never_leak :
  (forall rank scope, tidy (started Payload rank scope))
  /\ (forall (w : world Payload) (e : event Payload),
        tidy w -> ~ fatal e ->
        exists w' ts, step blank w e = Some (w', ts) /\ tidy w')
  /\ (forall (w : world Payload) sourceRank tag
             (messageHandlers : gmap Z (handler Payload))
             (arrival : MessageBase Payload * Mpl.status),
        tidy w ->
        messageHandlers !! Mpl.tag (snd arrival) = None ->
        exists w',
          receiveMultiTagHandle w sourceRank tag messageHandlers arrival
          = Return false w'
          /\ tidy w'
          /\ length (messageBuffer (self w'))
             = S (length (messageBuffer (self w)))).
Proof.
  split; [|split].
  - intros rank scope. split; [apply owned_started|].
    simpl. intros p [m Hm]. now rewrite lookup_empty in Hm.
  - intros w e Hw Hf. destruct e; simpl in Hf.
    + destruct (sending_frame w (do_send message recipientRank tag) I)
        as (w' & -> & Hs & Hh & _).
      exists w', None. split; [reflexivity|].
      revert Hw. apply tidy_same; [now rewrite Hs | exact Hh].
    + destruct (sending_frame w (do_broadcast message tag) I)
        as (w' & -> & Hs & Hh & _).
      exists w', None. split; [reflexivity|].
      revert Hw. apply tidy_same; [now rewrite Hs | exact Hh].
    + destruct (sending_frame w (do_sendVector message recipientRank tag) I)
        as (w' & -> & Hs & Hh & _).
      exists w', None. split; [reflexivity|].
      revert Hw. apply tidy_same; [now rewrite Hs | exact Hh].
    + destruct (sending_frame w (do_broadcastVector message tag) I)
        as (w' & -> & Hs & Hh & _).
      exists w', None. split; [reflexivity|].
      revert Hw. apply tidy_same; [now rewrite Hs | exact Hh].
    + destruct (receive_keeps_tidy w message sourceRank tag arrival Hw)
        as (s & w' & got & Hr & Hw').
      simpl. rewrite Hr. simpl. eexists _, _. split; [reflexivity | exact Hw'].
    + destruct (receive_keeps_tidy w message Mpl.any_source tag arrival Hw)
        as (s & w' & got & Hr & Hw').
      simpl. unfold receiveAny. rewrite Hr. simpl.
      eexists _, _. split; [reflexivity | exact Hw'].
    + destruct (receiveVector_returns Payload blank w message sourceRank tag d arrival)
        as (first & rest & _ & _ & Hr); [tauto | tauto |].
      simpl. rewrite Hr. simpl. eexists _, _. split; [reflexivity|].
      revert Hw. apply tidy_same; reflexivity.
    + destruct (receiveVector_returns Payload blank w message Mpl.any_source tag d
                  arrival) as (first & rest & _ & _ & Hr); [tauto | tauto |].
      simpl. unfold receiveVectorAny. rewrite Hr. simpl.
      eexists _, _. split; [reflexivity|].
      revert Hw. apply tidy_same; reflexivity.
  - intros w sourceRank tag messageHandlers arrival Hw Hnone.
    unfold receiveMultiTagHandle, handler in *. cbv zeta. rewrite Hnone.
    eexists. split; [reflexivity|]. split.
    + apply (tidy_stored (logged (recv_one sourceRank tag) w)).
      revert Hw. apply tidy_same; reflexivity.
    + simpl. rewrite length_app. simpl. lia.
Qed.

(** X7.  The buffer keeps the order of arrival: when two messages of one
    source and tag arrive through dispatch steps that have no handler for
    the tag, and nothing buffered earlier answers a receive for that source
    and tag, the next two receives for it return the first message and then
    the second, without a call on the communicator, and leave the buffer as
    it was before the two arrived. *)
Theorem buffered_messages_keep_order (w : world Payload) (sourceRank tag : Z)
    (messageHandlers : gmap Z (handler Payload))
    (first second dest1 dest2 : MessageBase Payload) (status : Mpl.status)
    (arrival1 arrival2 : MessageBase Payload * Mpl.status) :
  messageHandlers !! Mpl.tag status = None ->
  scan (Mpl.source status) [Mpl.tag status] (messageBuffer (self w)) = None ->
  exists w1 w2 w3 w4,
    receiveMultiTagHandle w sourceRank tag messageHandlers (first, status)
    = Return false w1
    /\ receiveMultiTagHandle w1 sourceRank tag messageHandlers (second, status)
       = Return false w2
    /\ receive w2 dest1 (Mpl.source status) (Mpl.tag status) arrival1
       = Return status (w3, first)
    /\ receive w3 dest2 (Mpl.source status) (Mpl.tag status) arrival2
       = Return status (w4, second)
    /\ messageBuffer (self w4) = messageBuffer (self w)
    /\ calls w4 = calls w2.
Proof.
  intros Hnone Hscan. apply scan_miss in Hscan.
  destruct (dispatch_stores Payload w sourceRank tag messageHandlers (first, status)
              Hnone)
    as (c1 & w1 & Hd1 & _ & Hh1 & Hb1 & _ & _ & _ & _).
  destruct (dispatch_stores Payload w1 sourceRank tag messageHandlers (second, status)
              Hnone)
    as (c2 & w2 & Hd2 & Hfresh2 & Hh2 & Hb2 & _ & _ & _ & _).
  cbn [fst snd] in *.
  assert (Hne : c1 <> c2).
  { intros ->. rewrite Hh1, lookup_insert_eq in Hfresh2. discriminate. }
  assert (Hwant : forall c, wanted (Mpl.source status) [Mpl.tag status] (c, status)).
  { intros c. split; [now right | left]. }
  assert (Hbuf2 : messageBuffer (self w2)
                  = messageBuffer (self w) ++ (c1, status) :: [(c2, status)]).
  { rewrite Hb2, Hb1, <- app_assoc. reflexivity. }
  assert (Hc1 : heap w2 !! c1 = Some first).
  { rewrite Hh2, lookup_insert_ne by congruence. rewrite Hh1. apply lookup_insert_eq. }
  pose proof (receive_buffered Payload w2 dest1 (Mpl.source status) (Mpl.tag status)
                arrival1 _ c1 status _ first Hbuf2 Hscan (Hwant c1) Hc1) as Hr1.
  set (w3 := observe (timestamp first)
               (with_heap (delete c1 (heap w2))
                  (with_buffer (messageBuffer (self w) ++ [(c2, status)]) w2))) in *.
  assert (Hc2 : heap w3 !! c2 = Some second).
  { simpl. rewrite lookup_delete_ne by congruence. rewrite Hh2. apply lookup_insert_eq. }
  pose proof (receive_buffered Payload w3 dest2 (Mpl.source status) (Mpl.tag status)
                arrival2 (messageBuffer (self w)) c2 status [] second eq_refl Hscan
                (Hwant c2) Hc2) as Hr2.
  eexists w1, w2, w3, _. split; [exact Hd1|]. split; [exact Hd2|].
  split; [exact Hr1|]. split; [exact Hr2|].
  split; [simpl; apply app_nil_r | reflexivity].
Qed.

(** X8.  A process that only sends counts its send events: from a clock
    that is an [int], a run of [n] send, broadcast, [sendVector] and
    [broadcastVector] events that stays within [INT_MAX] leaves the clock
    at the start value plus 1, plus 2, up to plus [n], one step per event
    whatever the batch sizes and the number of recipients. *)
Theorem sending_run_counts_events (events : list (event Payload))
    (w : world Payload) :
  Forall sending events ->
  Int.is_int (lamportClock (self w)) ->
  lamportClock (self w) + Z.of_nat (length events) <= Int.INT_MAX ->
  map after (run blank w events)
  = map (fun k => lamportClock (self w) + Z.of_nat (S k)) (seq 0 (length events))
  /\ Forall (fun m => incoming m = None) (run blank w events).
Proof.
  revert w. induction events as [|e rest IH]; intros w Hall Hint Hmax.
  - split; [reflexivity | apply Forall_nil_2].
  - apply Forall_cons_1 in Hall as [He Hrest].
    destruct (sending_frame w e He) as (w' & Hstep & Hs & _).
    assert (Hfit : Int.is_int (lamportClock (self w) + 1)).
    { clear -Hint Hmax. unfold Int.is_int in *. simpl length in Hmax. lia. }
    assert (Hclock : lamportClock (self w') = lamportClock (self w) + 1).
    { rewrite Hs. simpl. now apply wrap_fits. }
    destruct (IH w' Hrest) as [Hafter Hnone].
    { now rewrite Hclock. }
    { rewrite Hclock. clear -Hmax. simpl length in Hmax. lia. }
    cbn [run]. rewrite Hstep. cbn [map after length seq].
    split; [|apply Forall_cons_2; [reflexivity | exact Hnone]].
    rewrite Hafter, Hclock, <- seq_shift, map_map.
    change (Z.of_nat 1) with 1. apply (f_equal (cons _)).
    apply map_ext. intros k. lia.
Qed.

(** X9.  Within one process no two events share a clock value: along a run
    from an owned buffer in which no vector probe is fatal and every new
    clock value fits the [int], the clock values after the events are
    strictly increasing, all above the starting clock, and each receive
    leaves the clock above the timestamp it received. *)
Theorem clocks_of_a_run_increase (events : list (event Payload))
    (w : world Payload) :
  owned w ->
  Forall (fun e => ~ fatal e) events ->
  Forall (fun m => Int.is_int (due m)) (run blank w events) ->
  StronglySorted Z.lt (lamportClock (self w) :: map after (run blank w events))
  /\ Forall (fun m => forall ts, incoming m = Some ts -> ts < after m)
       (run blank w events).
Proof.
  revert w. induction events as [|e rest IH]; intros w Hw Hf Hfit.
  - split; [|apply Forall_nil_2].
    apply SSorted_cons; [apply SSorted_nil | apply Forall_nil_2].
  - apply Forall_cons_1 in Hf as [He Hrest].
    destruct (step_returns Payload blank w e Hw He) as (w' & ts & Hstep & Hw' & Hc).
    cbn [run] in *. rewrite Hstep in *. cbn [map after].
    apply Forall_cons_1 in Hfit as [Hfit0 Hfit].
    rewrite (wrap_fits _ Hfit0) in Hc. unfold due in Hc. cbn [incoming before] in Hc.
    destruct (IH w' Hw' Hrest Hfit) as [Hsorted Hrecv].
    split.
    + apply SSorted_cons; [exact Hsorted|].
      apply StronglySorted_inv in Hsorted as [_ Habove].
      assert (Hlt : lamportClock (self w) < lamportClock (self w'))
        by (rewrite Hc; clear; destruct ts; lia).
      apply Forall_cons_2; [exact Hlt|].
      eapply Forall_impl; [exact Habove|]. intros c Hc'. simpl in Hc'. lia.
    + apply Forall_cons_2; [|exact Hrecv].
      cbn [incoming after]. intros ts' ->. rewrite Hc. clear. lia.
Qed.

(** X10.  An answer sent from inside a handler is stamped after the message
    it answers: the dispatch step moves the clock past the incoming
    timestamp before it runs the handler, so a handler that sends back
    with [send] stamps its answer two above the larger of the old clock
    and the incoming timestamp, which the clock then equals, provided
    those values fit the [int]; the buffer is not touched. *)
Theorem reply_is_stamped_later (w : world Payload) (sourceRank tag : Z)
    (messageHandlers : gmap Z (handler Payload))
    (arrival : MessageBase Payload * Mpl.status)
    (answer : MessageBase Payload -> MessageBase Payload) (tag' : Z) :
  messageHandlers !! Mpl.tag (snd arrival) = Some (reply answer tag') ->
  Int.is_int (Z.max (lamportClock (self w)) (timestamp (fst arrival)) + 1) ->
  Int.is_int (Z.max (lamportClock (self w)) (timestamp (fst arrival)) + 2) ->
  exists w' stamped,
    receiveMultiTagHandle w sourceRank tag messageHandlers arrival = Return true w'
    /\ calls w' = calls w ++ [recv_one sourceRank tag;
                              send_one stamped (Mpl.source (snd arrival)) tag']
    /\ payload stamped = payload (answer (fst arrival))
    /\ timestamp stamped
       = Z.max (lamportClock (self w)) (timestamp (fst arrival)) + 2
    /\ timestamp (fst arrival) < timestamp stamped
    /\ lamportClock (self w') = timestamp stamped
    /\ messageBuffer (self w') = messageBuffer (self w).
Proof.
  intros Hh Hfit1 Hfit2.
  unfold receiveMultiTagHandle, handler in *. cbv zeta. rewrite Hh.
  unfold reply. eexists _, _. split; [reflexivity|].
  assert (Hstamp : Int.wrap (Int.wrap (Z.max (lamportClock (self w))
                                         (timestamp (fst arrival)) + 1) + 1)
                   = Z.max (lamportClock (self w)) (timestamp (fst arrival)) + 2).
  { rewrite (wrap_fits _ Hfit1).
    replace (Z.max (lamportClock (self w)) (timestamp (fst arrival)) + 1 + 1)
      with (Z.max (lamportClock (self w)) (timestamp (fst arrival)) + 2) by lia.
    now apply wrap_fits. }
  split; [simpl; now rewrite <- app_assoc|]. split; [reflexivity|].
  split; [exact Hstamp|]. split; [|split; reflexivity].
  simpl. unfold getTimestamp. rewrite Hstamp. clear. lia.
Qed.

End Beyond.

(** ** The further properties on the concrete processes *)

(** X1, rank 5 to rank 2: the message leaves stamped 1 and rank 2 ends at
    clock 2. *)
Lemma send_precedes_receive_example :
  exists w',
    receive rank2 (letter 0) 5 1 (snd (send rank5 (letter 7) 2 1), from 5 1)
    = Return (from 5 1) (w', snd (send rank5 (letter 7) 2 1))
    /\ payload (snd (send rank5 (letter 7) 2 1)) = payload (letter 7)
    /\ lamportClock (self (fst (send rank5 (letter 7) 2 1))) < lamportClock (self w')
    /\ lamportClock (self rank2) < lamportClock (self w').
Proof.
  apply (send_precedes_receive Z rank5 rank2 (letter 7) (letter 0) 2 1 5 1 (from 5 1)).
  - reflexivity.
  - apply is_int_by_bounds. reflexivity.
Defined.

(** X2, rank 5 to rank 2: a batch of two comes out of a destination that
    held three. *)
Lemma round_trip_example :
  exists w',
    receiveVector 0 rank2 [letter 0; letter 0; letter 0] 5 1
      (elements (snd (sendVector rank5 [letter 7; letter 8] 2 1))) (from 5 1)
    = Return (from 5 1) (w', snd (sendVector rank5 [letter 7; letter 8] 2 1))
    /\ map payload (snd (sendVector rank5 [letter 7; letter 8] 2 1))
       = map payload [letter 7; letter 8]
    /\ Forall (fun m => timestamp m
                        = lamportClock (self (fst (sendVector rank5
                                                     [letter 7; letter 8] 2 1))))
         (snd (sendVector rank5 [letter 7; letter 8] 2 1))
    /\ messageBuffer (self w') = messageBuffer (self rank2)
    /\ lamportClock (self (fst (sendVector rank5 [letter 7; letter 8] 2 1)))
       < lamportClock (self w').
Proof.
  apply (sendVector_receiveVector_round_trip Z 0 rank5 rank2 [letter 7; letter 8]
           [letter 0; letter 0; letter 0] 2 1 5 1 (from 5 1)).
  - discriminate.
  - apply Z.leb_le. reflexivity.
  - apply is_int_by_bounds. reflexivity.
Defined.

(** X3, on rank 5: the batch goes to 2 and 7 once each and not to 5; with
    a scope that names only rank 5 nothing is sent and the clock moves. *)
Lemma broadcastVector_from_rank5 :
  sends_to 2 (calls (fst (broadcastVector rank5 [letter 7] 1))) = 1%nat
  /\ sends_to 7 (calls (fst (broadcastVector rank5 [letter 7] 1))) = 1%nat
  /\ sends_to 5 (calls (fst (broadcastVector rank5 [letter 7] 1))) = 0%nat
  /\ calls (fst (broadcastVector (started Z 5 [5; 5]) [letter 7] 1)) = []
  /\ lamportClock (self (fst (broadcastVector (started Z 5 [5; 5]) [letter 7] 1))) = 1.
Proof.
  destruct (broadcastVector_once_per_entry Z rank5 [letter 7] 1)
    as (_ & Hme & _ & Honce & _).
  destruct (broadcastVector_once_per_entry Z (started Z 5 [5; 5]) [letter 7] 1)
    as (_ & _ & _ & _ & Hnone).
  assert (Hnd : NoDup (broadcastScope (self rank5)))
    by (apply (bool_decide_unpack _); reflexivity).
  split; [apply (Honce Hnd 2); [apply list_elem_of_here | discriminate]|].
  split; [apply (Honce Hnd 7); [do 2 apply list_elem_of_further; apply list_elem_of_here
                               | discriminate]|].
  split; [exact Hme|].
  apply Hnone. repeat apply Forall_cons_2; try apply Forall_nil_2; reflexivity.
Defined.

(** X4, on the waiting buffer: a broadcast makes two sends and leaves the
    three buffered messages where they are. *)
Lemma sending_on_waiting_buffer :
  exists w' sent,
    step 0 rank5_waiting (do_broadcast (letter 7) 1) = Some (w', None)
    /\ messageBuffer (self w') = messageBuffer (self rank5_waiting)
    /\ heap w' = heap rank5_waiting
    /\ calls w' = sent
    /\ length sent = 2%nat.
Proof.
  destruct (sending_leaves_buffer_alone Z 0 rank5_waiting (do_broadcast (letter 7) 1) I)
    as (w' & sent & Hstep & _ & _ & Hb & Hh & Hc & _ & Hlen).
  exists w', sent. split; [exact Hstep|]. split; [exact Hb|]. split; [exact Hh|].
  split; [exact Hc | exact Hlen].
Defined.

(** X6, on rank 5: after an unhandled message and the receive that fetches
    it nothing dangles and nothing has leaked. *)
Lemma tidy_on_rank5 :
  exists w' w'' ts,
    receiveMultiTagHandle rank5 2 4 {[ 3 := ignore ]} (letter 9, from 2 4)
    = Return false w'
    /\ tidy w'
    /\ length (messageBuffer (self w')) = 1%nat
    /\ step 0 w' (do_receive (letter 0) 2 4 (letter 50, from 2 4)) = Some (w'', ts)
    /\ tidy w''.
Proof.
  destruct (buffer_copies_never_leak Z 0) as (Hstart & Hstep & Hstore).
  assert (Hnone : ({[ 3 := ignore ]} : gmap Z (handler Z))
                  !! Mpl.tag (snd (letter 9, from 2 4)) = None)
    by (vm_compute; reflexivity).
  destruct (Hstore rank5 2 4 {[ 3 := ignore ]} (letter 9, from 2 4)
              (Hstart 5 [2; 5; 7]) Hnone) as (w' & Hret & Htidy & Hlen).
  destruct (Hstep w' (do_receive (letter 0) 2 4 (letter 50, from 2 4)) Htidy
              (fun H => H)) as (w'' & ts & Hs & Htidy').
  exists w', w'', ts. split; [exact Hret|]. split; [exact Htidy|].
  split; [exact Hlen|]. split; [exact Hs | exact Htidy'].
Defined.

(** X7, on rank 5: two messages from rank 2 on the unhandled tag 4 come
    back in the order they arrived. *)
Lemma order_on_rank5 :
  exists w1 w2 w3 w4,
    receiveMultiTagHandle rank5 2 4 {[ 3 := ignore ]} (letter 9, from 2 4)
    = Return false w1
    /\ receiveMultiTagHandle w1 2 4 {[ 3 := ignore ]} (letter 8, from 2 4)
       = Return false w2
    /\ receive w2 (letter 0) 2 4 (letter 50, from 2 4) = Return (from 2 4) (w3, letter 9)
    /\ receive w3 (letter 0) 2 4 (letter 50, from 2 4) = Return (from 2 4) (w4, letter 8)
    /\ messageBuffer (self w4) = messageBuffer (self rank5)
    /\ calls w4 = calls w2.
Proof.
  assert (Hnone : ({[ 3 := ignore ]} : gmap Z (handler Z)) !! Mpl.tag (from 2 4) = None)
    by (vm_compute; reflexivity).
  exact (buffered_messages_keep_order Z rank5 2 4 {[ 3 := ignore ]}
           (letter 9) (letter 8) (letter 0) (letter 0) (from 2 4)
           (letter 50, from 2 4) (letter 50, from 2 4) Hnone eq_refl).
Defined.

(** X8, on rank 5: four sending events take the clock through 1, 2, 3
    and 4. *)
Lemma sends_only_count :
  map after (run 0 rank5 sends_only) = [1; 2; 3; 4]
  /\ Forall (fun m => incoming m = None) (run 0 rank5 sends_only).
Proof.
  apply (sending_run_counts_events Z 0 sends_only rank5).
  - unfold sends_only. repeat apply Forall_cons_2; try apply Forall_nil_2; exact I.
  - apply is_int_by_bounds. reflexivity.
  - apply Z.leb_le. reflexivity.
Defined.

(** X9, on the session of rank 5: the clocks 0, 11, 12, 13, 14, 15, 16 are
    strictly increasing. *)
Lemma session_clocks_increase :
  StronglySorted Z.lt (lamportClock (self rank5) :: map after (run 0 rank5 session))
  /\ Forall (fun m => forall ts, incoming m = Some ts -> ts < after m)
       (run 0 rank5 session).
Proof.
  apply (clocks_of_a_run_increase Z 0 session rank5).
  - apply owned_started.
  - unfold session. repeat apply Forall_cons_2; try apply Forall_nil_2;
      simpl; try tauto.
    vm_compute. intros [H|H]; discriminate H.
  - set (r := run 0 rank5 session). vm_compute in r. subst r.
    repeat apply Forall_cons_2; try apply Forall_nil_2;
      apply is_int_by_bounds; reflexivity.
Defined.

(** X10, on rank 5: a message stamped 9 on tag 3 is answered on tag 8 with
    a message stamped 11. *)
Lemma reply_on_rank5 :
  exists w' stamped,
    receiveMultiTagHandle rank5 2 3 {[ 3 := reply (fun m => m) 8 ]} (letter 9, from 2 3)
    = Return true w'
    /\ calls w' = [recv_one 2 3; send_one stamped 2 8]
    /\ timestamp stamped = 11
    /\ lamportClock (self w') = timestamp stamped.
Proof.
  assert (Hsome : ({[ 3 := reply (fun m => m) 8 ]} : gmap Z (handler Z))
                  !! Mpl.tag (snd (letter 9, from 2 3))
                  = Some (reply (fun m => m) 8))
    by (change (Mpl.tag (snd (letter 9, from 2 3))) with 3; apply lookup_singleton_eq).
  destruct (reply_is_stamped_later Z rank5 2 3 {[ 3 := reply (fun m => m) 8 ]}
              (letter 9, from 2 3) (fun m => m) 8 Hsome)
    as (w' & stamped & Hret & Hcalls & _ & Hts & _ & Hclock & _).
  - apply is_int_by_bounds. reflexivity.
  - apply is_int_by_bounds. reflexivity.
  - exists w', stamped. split; [exact Hret|]. split; [exact Hcalls|].
    split; [exact Hts | exact Hclock].
Defined.
